(** * Flask-DB: the three tutorial applications, embedded and verified

    The repository holds three independent Flask applications:

    - [part-1/app.py]: a student registry over one SQLite table, with a
      route that inserts the next of five sample students;
    - [part-2/app.py]: the same table with form-driven create, edit and
      delete, a duplicate-email guard and flash messages;
    - [part-4/app.py]: a JSON API over two related tables (authors and
      books) with search, sorting and pagination.

    Each application is embedded as pure functions over an explicit model
    of its tables: a handler takes the request and the database and returns
    the response together with the database after the request.  The
    storage engine and the object-relational mapper are modelled only as
    far as the handlers use them: a table is the list of its rows in
    row-id order, a primary-key lookup is the first row with that id, a
    commit that violates a declared constraint fails the request with
    status 500 and leaves the tables as they were.  Requests are handled
    one at a time.  Strings are ASCII byte strings and every
    case-insensitive comparison is the ASCII one.  The JSON bodies of the
    API are objects whose values have the types of the columns they are
    bound to.

    Integers are modelled by [Z].  SQLite stores, and its driver binds as
    a statement parameter, only the signed 64-bit integers ([int64]
    below); an integer outside that range makes the driver raise before
    the statement runs.  The handlers are therefore embedded for the
    integers the driver can bind.  A theorem that tells the answer to a
    request carrying an arbitrary integer into a statement (an id of the
    URL, an [author_id] or a [year] of a body, a [year] or a page number
    of a query string) states [int64] of that integer as a hypothesis.
    The theorems about a row that exists need none, an id that is stored
    being in range; nor do the invariants of the tables, which a request
    that fails keeps by leaving the tables as they were. *)

From Stdlib Require Import ZArith Ascii String Sorting.Sorted Sorting.Permutation.
From stdpp Require Import base option list sorting gmap strings.

Local Open Scope string_scope.
Local Open Scope list_scope.
Local Open Scope Z_scope.

(** ** Shared helpers *)

(** The double-quote character, for the HTML fragments the handlers
    return. *)
Definition dquote : string := String (ascii_of_nat 34) EmptyString.

(** The integers SQLite stores and its driver binds: the signed 64-bit
    range. *)
Definition int64 (z : Z) : Prop := - 2 ^ 63 ≤ z < 2 ^ 63.

(** The ids that reach a view and its statements: the converter
    [<int:id>] of a route accepts unsigned decimal numbers only, and the
    driver binds the signed 64-bit ones. *)
Definition route_id (i : Z) : Prop := 0 ≤ i ∧ int64 i.

(** The largest of a list of ids, [0] for the empty list. *)
Definition max_id (ids : list Z) : Z := foldr Z.max 0 ids.

(** ASCII lower-casing, as [str.lower] and SQLite's [lower] act on
    ASCII letters. *)
Definition ascii_lower (c : ascii) : ascii :=
  let n := nat_of_ascii c in
  if ((65 <=? n) && (n <=? 90))%nat then ascii_of_nat (n + 32) else c.

Fixpoint lower (s : string) : string :=
  match s with
  | EmptyString => EmptyString
  | String c s' => String (ascii_lower c) (lower s')
  end.

(** Python truthiness of a string: non-empty. *)
Definition nonempty (s : string) : bool :=
  match s with EmptyString => false | String _ _ => true end.

(** *** Python's [int] on a query-string value

    [int(s)] accepts a decimal literal: optional surrounding whitespace,
    an optional sign, then digits, where single underscores may separate
    digits.  [py_int s] is [None] where [int] raises [ValueError].  The
    whitespace [int] strips from an ASCII string is the space and the
    bytes 9 to 13 (tab, line feed, vertical tab, form feed, carriage
    return); the separators 28 to 31 are not stripped, so a value that
    begins with one of them is rejected.  The interpreter's configurable
    limit on the number of digits is left out. *)
Definition is_space (c : ascii) : bool :=
  let n := nat_of_ascii c in
  (((9 <=? n) && (n <=? 13)) || (n =? 32))%nat.

Definition digit_value (c : ascii) : option Z :=
  let n := nat_of_ascii c in
  if ((48 <=? n) && (n <=? 57))%nat then Some (Z.of_nat n - 48) else None.

Fixpoint skip_spaces (cs : list ascii) : list ascii :=
  match cs with
  | c :: cs' => if is_space c then skip_spaces cs' else cs
  | [] => []
  end.

Definition strip (cs : list ascii) : list ascii :=
  reverse (skip_spaces (reverse (skip_spaces cs))).

Fixpoint parse_digits (acc : Z) (after_digit : bool) (cs : list ascii) : option Z :=
  match cs with
  | [] => if after_digit then Some acc else None
  | c :: cs' =>
    if Ascii.eqb c "_" then
      if after_digit then parse_digits acc false cs' else None
    else
      match digit_value c with
      | Some d => parse_digits (10 * acc + d) true cs'
      | None => None
      end
  end.

Definition py_int (s : string) : option Z :=
  match strip (list_ascii_of_string s) with
  | c :: ds =>
    if Ascii.eqb c "-" then Z.opp <$> parse_digits 0 false ds
    else if Ascii.eqb c "+" then parse_digits 0 false ds
    else parse_digits 0 false (c :: ds)
  | [] => None
  end.

(** [request.args.get(key, default=d, type=int)]: the default when the
    key is absent and also when [int] rejects the value. *)
Definition args_get_int (args : gmap string string) (key : string) : option Z :=
  args !! key ≫= py_int.

(** *** SQL [LIKE]

    [%] matches any run of characters, [_] any single character, every
    other character itself, letters without regard to case. *)
Fixpoint like_chars (p s : list ascii) : bool :=
  match p with
  | [] => match s with [] => true | _ :: _ => false end
  | c :: p' =>
    if Ascii.eqb c "%" then
      (fix any_suffix (s : list ascii) : bool :=
         like_chars p' s
         || match s with [] => false | _ :: s' => any_suffix s' end) s
    else
      match s with
      | [] => false
      | d :: s' =>
        (Ascii.eqb c "_" || Ascii.eqb (ascii_lower c) (ascii_lower d))
        && like_chars p' s'
      end
  end.

(** [column.ilike(pattern)] *)
Definition ilike (value pattern : string) : bool :=
  like_chars (list_ascii_of_string (lower pattern))
             (list_ascii_of_string (lower value)).

(** [value LIKE pattern] in SQLite, whose [LIKE] ignores the case of
    ASCII letters. *)
Definition sql_like (value pattern : string) : bool :=
  like_chars (list_ascii_of_string pattern) (list_ascii_of_string value).

(** A search string without the two [LIKE] wildcards. *)
Definition wildcard_free (p : list ascii) : Prop :=
  ∀ c, c ∈ p → c ≠ "%"%char ∧ c ≠ "_"%char.

(** The f-string [f"%{s}%"]. *)
Definition contains_pattern (s : string) : string :=
  String.append "%" (String.append s "%").

(** ** Part 1: the sample-student registry *)

Module Part1.

(** A row of the [students] table. *)
Record student := mk_student {
  id : Z;
  name : string;
  email : string;
  course : string;
}.

(** The [students] table: its rows in row-id order, and the largest row
    id ever handed out (the table is declared [AUTOINCREMENT], so SQLite
    keeps that number in [sqlite_sequence]). *)
Record table := mk_table {
  rows : list student;
  seq : Z;
}.

(** What a handler returns: a page with status 200, or the failure of an
    uncaught exception. *)
Inductive response :=
| Page (body : string)
| ServerError.

Definition sample_students : list (string * string * string) :=
  [ ("Student 1", "student1@example.com", "Flask + Databases");
    ("Student 2", "student2@example.com", "Python for Beginners");
    ("Student 3", "student3@example.com", "Web Development with HTML/CSS");
    ("Student 4", "student4@example.com", "APIs with Flask");
    ("Student 5", "student5@example.com", "Intro to Data Science") ].

(** The id an [AUTOINCREMENT] column gives the next row: one more than
    the largest id that ever existed in the table. *)
Definition next_rowid (t : table) : Z :=
  Z.max (seq t) (max_id (id <$> rows t)) + 1.

(** [INSERT INTO students (name, email, course) VALUES (?, ?, ?)] *)
Definition insert_student (v : string * string * string) (t : table) : table :=
  let '(n, e, c) := v in
  let i := next_rowid t in
  {| rows := rows t ++ [mk_student i n e c]; seq := i |}.

(** [SELECT COUNT( * ) FROM students] *)
Definition count_students (t : table) : nat := length (rows t).

Definition added_page : string :=
  String.concat EmptyString
    ["Sample student added! <a href="; dquote; "/"; dquote;
     ">Go back to home</a>"].

(** [add_sample_student], the handler of [/add].  Indexing the sample
    list out of range would raise [IndexError]. *)
Definition add_sample_student (t : table) : response * table :=
  let existing_students_count := count_students t in
  match sample_students !!
          (existing_students_count `mod` length sample_students)%nat with
  | Some next_student => (Page added_page, insert_student next_student t)
  | None => (ServerError, t)
  end.

(** [index], the handler of [/]: all rows, handed to the template. *)
Definition index (t : table) : list student := rows t.

(** *** Runs of requests *)

(** The table [init_db] creates: no rows, nothing handed out yet. *)
Definition empty_table : table := mk_table [] 0.

(** The table after [n] requests to [/add] in a row. *)
Definition add_requests (n : nat) (t : table) : table :=
  Nat.iter n (λ t, (add_sample_student t).2) t.

(** The row with id [k + 1] that holds the sample at index [k mod 5]. *)
Definition sample_row (k : nat) : option student :=
  (λ v : string * string * string, mk_student (Z.of_nat k + 1) v.1.1 v.1.2 v.2)
    <$> sample_students !! (k `mod` length sample_students)%nat.

End Part1.

(** ** Part 2: the student registry with forms *)

Module Part2.

(** A row of the [students] table; [email] is declared [UNIQUE]. *)
Record student := mk_student {
  id : Z;
  name : string;
  email : string;
  course : string;
}.

(** The table: rows in row-id order, and the [AUTOINCREMENT] counter. *)
Record table := mk_table {
  rows : list student;
  seq : Z;
}.

Inductive http_method := GET | POST.

(** The part of a request the handlers read: the method and the
    submitted form fields ([request.form]). *)
Record request := mk_request {
  method : http_method;
  form : gmap string string;
}.

(** What a handler returns.  [Redirect e] is [redirect(url_for(e))];
    the [Render...] constructors are the [render_template] calls with
    the values handed to the template; [BadRequest] is the 400 that
    [request.form[...]] raises on a missing field; [ServerError] is an
    uncaught database exception. *)
Inductive response :=
| Redirect (endpoint : string)
| RenderAdd
| RenderEdit (student_row : option student)
| BadRequest
| ServerError.

(** The status code Flask sends for each response. *)
Definition status (r : response) : Z :=
  match r with
  | Redirect _ => 302
  | RenderAdd | RenderEdit _ => 200
  | BadRequest => 400
  | ServerError => 500
  end.

(** The result of handling one request: the response, the messages
    flashed (text and category, in order), and the table afterwards. *)
Record outcome := mk_outcome {
  resp : response;
  flashed : list (string * string);
  db : table;
}.

Definition next_rowid (t : table) : Z :=
  Z.max (seq t) (max_id (id <$> rows t)) + 1.

(** [SELECT * FROM students WHERE email = ?], [fetchone()] *)
Definition select_by_email (e : string) (t : table) : option student :=
  head (filter (λ r, email r = e) (rows t)).

(** [SELECT * FROM students WHERE id = ?], [fetchone()], for an id the
    driver binds ([int64]); so are the two statements below that take an
    id. *)
Definition select_by_id (i : Z) (t : table) : option student :=
  head (filter (λ r, id r = i) (rows t)).

(** [INSERT INTO students (name, email, course) VALUES (?, ?, ?)]:
    fails ([None]) when the email is already in the table. *)
Definition insert_student (n e c : string) (t : table) : option table :=
  if decide (e ∈ email <$> rows t) then None
  else
    let i := next_rowid t in
    Some {| rows := rows t ++ [mk_student i n e c]; seq := i |}.

(** [UPDATE students SET name = ?, email = ?, course = ? WHERE id = ?]:
    fails ([None]) when a row is updated to an email that another row
    holds. *)
Definition update_student (i : Z) (n e c : string) (t : table) : option table :=
  if decide (i ∈ id <$> rows t) then
    if decide (e ∈ email <$> filter (λ r, id r ≠ i) (rows t)) then None
    else
      Some {| rows := (λ r, if decide (id r = i)
                            then mk_student i n e c else r) <$> rows t;
              seq := seq t |}
  else Some t.

(** [DELETE FROM students WHERE id = ?] *)
Definition delete_row (i : Z) (t : table) : table :=
  {| rows := filter (λ r, id r ≠ i) (rows t); seq := seq t |}.

(** [add_student], the handler of [/add]. *)
Definition add_student (req : request) (t : table) : outcome :=
  match method req with
  | POST =>
    match form req !! "name", form req !! "email", form req !! "course" with
    | Some student_name, Some student_email, Some student_course =>
      match select_by_email student_email t with
      | Some existing_student =>
        mk_outcome (Redirect "add_student")
                   [("Email already exists!", "danger")] t
      | None =>
        match insert_student student_name student_email student_course t with
        | Some t' =>
          mk_outcome (Redirect "index")
                     [("Student added successfully!", "success")] t'
        | None => mk_outcome ServerError [] t
        end
      end
    | _, _, _ => mk_outcome BadRequest [] t
    end
  | GET => mk_outcome RenderAdd [] t
  end.

(** [edit_student], the handler of [/edit/<int:id>]. *)
Definition edit_student (i : Z) (req : request) (t : table) : outcome :=
  match method req with
  | POST =>
    match form req !! "name", form req !! "email", form req !! "course" with
    | Some updated_name, Some updated_email, Some updated_course =>
      match update_student i updated_name updated_email updated_course t with
      | Some t' =>
        mk_outcome (Redirect "index")
                   [("Student updated successfully!", "success")] t'
      | None => mk_outcome ServerError [] t
      end
    | _, _, _ => mk_outcome BadRequest [] t
    end
  | GET => mk_outcome (RenderEdit (select_by_id i t)) [] t
  end.

(** [delete_student], the handler of [/delete/<int:id>]. *)
Definition delete_student (i : Z) (t : table) : outcome :=
  mk_outcome (Redirect "index") [("Student deleted!", "danger")]
             (delete_row i t).

(** *** The index page *)

(** [ORDER BY id DESC] *)
Definition newest_first (x y : student) : Prop := id y ≤ id x.

#[export] Instance newest_first_dec x y : Decision (newest_first x y).
Proof. unfold newest_first. apply _. Defined.

(** [index], the handler of [/]: the rows and the search string it hands
    to the template.  A search keeps the rows whose name is [LIKE] the
    pattern built around the search string. *)
Definition index (args : gmap string string) (t : table)
  : list student * option string :=
  let search_query := args !! "search" in
  let students :=
    match search_query with
    | Some q =>
      if nonempty q
      then merge_sort newest_first
             (filter (λ r, sql_like (name r) (contains_pattern q) = true)
                     (rows t))
      else merge_sort newest_first (rows t)
    | None => merge_sort newest_first (rows t)
    end in
  (students, search_query).

(** *** Notions used in the specifications *)

(** The table [initialize_database] creates. *)
Definition empty_table : table := mk_table [] 0.

(** What the schema promises of the table: ids and emails are unique, and
    no id exceeds the [AUTOINCREMENT] counter, which starts at 0. *)
Definition well_formed (t : table) : Prop :=
  NoDup (id <$> rows t)
  ∧ NoDup (email <$> rows t)
  ∧ 0 ≤ seq t
  ∧ ∀ r, r ∈ rows t → id r ≤ seq t.

(** The rows a search for [q] keeps. *)
Definition found_by (q : option string) (r : student) : Prop :=
  match q with
  | Some q => nonempty q = true → sql_like (name r) (contains_pattern q) = true
  | None => True
  end.

#[export] Instance found_by_dec q r : Decision (found_by q r).
Proof. destruct q; simpl; apply _. Defined.

(** *** Sample data *)

(** A table with one student, and the form a browser submits. *)
Definition one_student : table :=
  mk_table [mk_student 1 "Ada" "ada@example.com" "Logic"] 1.

Definition student_form (n e c : string) : gmap string string :=
  {[ "name" := n; "email" := e; "course" := c ]}.

End Part2.

(** ** Part 4: the book and author API *)

Module Part4.

(** *** Tables *)

(** A row of the [author] table; [name] is declared unique. *)
Module Author.
Record t := mk {
  id : Z;
  name : string;
  city : string;
}.
End Author.

(** A row of the [book] table.  [title] and [author_id] are declared
    not null, [isbn] unique; [year], [isbn] and [created_at] may be
    null ([None]).  [created_at] is a point in time, in microseconds. *)
Module Book.
Record t := mk {
  id : Z;
  title : string;
  year : option Z;
  isbn : option string;
  created_at : option Z;
  author_id : Z;
}.
End Book.

(** The database: both tables, rows in row-id order. *)
Record database := mk_database {
  authors : list Author.t;
  books : list Book.t;
}.

(** *** Requests *)

(** The JSON object of a book request, with the values typed as the
    columns they are bound to: [title] a string and [author_id] an
    integer, [year] an integer or null, [isbn] a string or null.  The
    outer [None] is an absent key; for [year] and [isbn] the inner
    [None] is JSON [null].  [other_keys] tells whether the object has
    any key besides these four. *)
Record book_json := mk_book_json {
  j_title : option string;
  j_author_id : option Z;
  j_year : option (option Z);
  j_isbn : option (option string);
  j_other_keys : bool;
}.

(** The JSON object of an author request: [name] and [city] strings. *)
Record author_json := mk_author_json {
  j_name : option string;
  j_city : option string;
  ja_other_keys : bool;
}.

(** [not data] for a dictionary: it has no key. *)
Definition book_json_empty (data : book_json) : bool :=
  negb (bool_decide (is_Some (j_title data)))
  && negb (bool_decide (is_Some (j_author_id data)))
  && negb (bool_decide (is_Some (j_year data)))
  && negb (bool_decide (is_Some (j_isbn data)))
  && negb (j_other_keys data).

Definition author_json_empty (data : author_json) : bool :=
  negb (bool_decide (is_Some (j_name data)))
  && negb (bool_decide (is_Some (j_city data)))
  && negb (ja_other_keys data).

(** Python truthiness of [data.get(key)]: the key is there with a
    non-empty string, respectively a non-zero integer. *)
Definition truthy_str (v : option string) : bool :=
  match v with Some s => nonempty s | None => false end.

Definition truthy_int (v : option Z) : bool :=
  match v with Some z => negb (z =? 0) | None => false end.

(** *** Responses *)

(** [Book.to_dict()] *)
Record book_dict := mk_book_dict {
  d_id : Z;
  d_title : string;
  d_year : option Z;
  d_isbn : option string;
  d_author : Z * string;
  d_created_at : option Z;
}.

(** [Author.to_dict()]; [a_books] is [None] without [include_books]. *)
Record author_dict := mk_author_dict {
  a_id : Z;
  a_name : string;
  a_city : string;
  a_books : option (list book_dict);
}.

(** The JSON documents the handlers return.  [Failure e] is
    [{success: False, error: e}]; all others carry [success: True]. *)
Inductive body :=
| Failure (error : string)
| BookResult (message : option string) (book : book_dict)
| AuthorResult (message : option string) (author : author_dict)
| Done (message : string)
| BookList (count : nat) (book_list : list book_dict)
| AuthorList (count : nat) (author_list : list author_dict)
| BookPage (page per_page : Z) (total_items total_pages : Z)
           (has_next has_prev : bool) (book_list : list book_dict)
| BookSorted (sort order : string) (count : nat) (book_list : list book_dict).

Record response := mk_response {
  status : Z;
  payload : body;
}.

(** The handler registered for status 500: what a request answers when
    an exception escapes the view. *)
Definition internal_error : response :=
  mk_response 500 (Failure "Internal server error").

(** *** The session *)

(** [db.session.get(Author, id)], for an id the driver binds
    ([int64]). *)
Definition session_get_author (i : Z) (db : database) : option Author.t :=
  head (filter (λ a, Author.id a = i) (authors db)).

(** [db.session.get(Book, id)], for an id the driver binds ([int64]). *)
Definition session_get_book (i : Z) (db : database) : option Book.t :=
  head (filter (λ b, Book.id b = i) (books db)).

(** [Book.query.filter_by(isbn=v).first()] *)
Definition first_book_by_isbn (v : string) (db : database) : option Book.t :=
  head (filter (λ b, Book.isbn b = Some v) (books db)).

(** [Author.query.filter_by(name=v).first()] *)
Definition first_author_by_name (v : string) (db : database) : option Author.t :=
  head (filter (λ a, Author.name a = v) (authors db)).

(** The id an integer primary key gets on insert: one more than the
    largest in the table. *)
Definition next_book_id (db : database) : Z := max_id (Book.id <$> books db) + 1.
Definition next_author_id (db : database) : Z := max_id (Author.id <$> authors db) + 1.

(** The unique constraint on [book.isbn], checked for the row with id
    [i] holding [v]: no other row holds the same non-null value. *)
Definition isbn_free (i : Z) (v : option string) (db : database) : bool :=
  match v with
  | None => true
  | Some s =>
    bool_decide (Some s ∉ Book.isbn <$> filter (λ b, Book.id b ≠ i) (books db))
  end.

(** The unique constraint on [author.name], for the row with id [i]. *)
Definition name_free (i : Z) (v : string) (db : database) : bool :=
  bool_decide (v ∉ Author.name <$> filter (λ a, Author.id a ≠ i) (authors db)).

(** [session.add(new_book); session.commit()]: [None] when the insert
    violates a constraint.  The integer fields of the row are taken to
    be ones the driver binds ([int64]). *)
Definition commit_new_book (b : Book.t) (db : database) : option database :=
  if isbn_free (Book.id b) (Book.isbn b) db
  then Some {| authors := authors db; books := books db ++ [b] |}
  else None.

(** [session.commit()] after the attributes of the book with id [i]
    were set to those of [b]. *)
Definition commit_book (i : Z) (b : Book.t) (db : database) : option database :=
  if isbn_free i (Book.isbn b) db
  then Some {| authors := authors db;
               books := (λ r, if decide (Book.id r = i) then b else r)
                          <$> books db |}
  else None.

Definition commit_new_author (a : Author.t) (db : database) : option database :=
  if name_free (Author.id a) (Author.name a) db
  then Some {| authors := authors db ++ [a]; books := books db |}
  else None.

Definition commit_author (i : Z) (a : Author.t) (db : database) : option database :=
  if name_free i (Author.name a) db
  then Some {| authors := (λ r, if decide (Author.id r = i) then a else r)
                            <$> authors db;
               books := books db |}
  else None.

(** [session.delete(book); session.commit()] *)
Definition commit_delete_book (i : Z) (db : database) : database :=
  {| authors := authors db;
     books := filter (λ b, Book.id b ≠ i) (books db) |}.

(** [session.delete(author); session.commit()]: the relationship
    [Author.books] cascades the delete to the author's books. *)
Definition commit_delete_author (i : Z) (db : database) : database :=
  {| authors := filter (λ a, Author.id a ≠ i) (authors db);
     books := filter (λ b, Book.author_id b ≠ i) (books db) |}.

(** *** Serialization *)

(** [Book.to_dict]: [None] when [self.author_ref] is missing, where
    reading [self.author_ref.id] raises. *)
Definition book_to_dict (db : database) (b : Book.t) : option book_dict :=
  author_ref ← session_get_author (Book.author_id b) db;
  Some {| d_id := Book.id b;
          d_title := Book.title b;
          d_year := Book.year b;
          d_isbn := Book.isbn b;
          d_author := (Author.id author_ref, Author.name author_ref);
          d_created_at := Book.created_at b |}.

(** [[book.to_dict() for book in books]] *)
Definition books_to_dicts (db : database) (l : list Book.t) : option (list book_dict) :=
  mapM (book_to_dict db) l.

(** [Author.to_dict(include_books)]; [self.books] are the rows of
    [book] that reference the author. *)
Definition author_to_dict (db : database) (include_books : bool) (a : Author.t)
  : option author_dict :=
  if include_books then
    bs ← books_to_dicts db
           (filter (λ b, Book.author_id b = Author.id a) (books db));
    Some {| a_id := Author.id a; a_name := Author.name a;
            a_city := Author.city a; a_books := Some bs |}
  else
    Some {| a_id := Author.id a; a_name := Author.name a;
            a_city := Author.city a; a_books := None |}.

(** *** Book routes *)

Definition error (code : Z) (msg : string) : response :=
  mk_response code (Failure msg).

(** [data[key]]: a missing key raises [KeyError], which escapes the view
    as status 500. *)
Definition subscript {A B} (v : option A) (k : A → response * B) (db : B)
  : response * B :=
  match v with
  | Some x => k x
  | None => (internal_error, db)
  end.

(** [get_books], [GET /api/books] *)
Definition get_books (db : database) : response :=
  let all := books db in
  match books_to_dicts db all with
  | Some ds => mk_response 200 (BookList (length all) ds)
  | None => internal_error
  end.

(** [get_book], [GET /api/books/<int:id>] *)
Definition get_book (i : Z) (db : database) : response :=
  match session_get_book i db with
  | None => error 404 "Book not found"
  | Some book =>
    match book_to_dict db book with
    | Some d => mk_response 200 (BookResult None d)
    | None => internal_error
    end
  end.

(** [create_book], [POST /api/books]; [now] is the clock reading that
    the default of [created_at] takes. *)
Definition create_book (now : Z) (data : book_json) (db : database)
  : response * database :=
  if book_json_empty data then (error 400 "No data provided", db)
  else if negb (truthy_str (j_title data)) || negb (truthy_int (j_author_id data))
  then (error 400 "Title and author_id are required", db)
  else
    subscript (j_author_id data) (λ data_author_id,
    match session_get_author data_author_id db with
    | None => (error 404 "Author not found", db)
    | Some author =>
      if truthy_str (mjoin (j_isbn data))
         && bool_decide (is_Some (mjoin (j_isbn data) ≫= λ v, first_book_by_isbn v db))
      then (error 400 "ISBN already exists", db)
      else
        subscript (j_title data) (λ data_title,
        let new_book :=
          Book.mk (next_book_id db) data_title (mjoin (j_year data))
                  (mjoin (j_isbn data)) (Some now) data_author_id in
        match commit_new_book new_book db with
        | None => (internal_error, db)
        | Some db' =>
          match book_to_dict db' new_book with
          | Some d =>
            (mk_response 201 (BookResult (Some "Book created successfully") d), db')
          | None => (internal_error, db')
          end
        end) db
    end) db.

Definition set_title (v : string) (b : Book.t) : Book.t :=
  Book.mk (Book.id b) v (Book.year b) (Book.isbn b) (Book.created_at b)
          (Book.author_id b).
Definition set_author_id (v : Z) (b : Book.t) : Book.t :=
  Book.mk (Book.id b) (Book.title b) (Book.year b) (Book.isbn b)
          (Book.created_at b) v.
Definition set_year (v : option Z) (b : Book.t) : Book.t :=
  Book.mk (Book.id b) (Book.title b) v (Book.isbn b) (Book.created_at b)
          (Book.author_id b).
Definition set_isbn (v : option string) (b : Book.t) : Book.t :=
  Book.mk (Book.id b) (Book.title b) (Book.year b) v (Book.created_at b)
          (Book.author_id b).

(** [if key in data: book.attr = data[key]] *)
Definition assign {A} (v : option A) (set : A → Book.t → Book.t) (b : Book.t) : Book.t :=
  match v with
  | Some x => set x b
  | None => b
  end.

(** [update_book], [PUT /api/books/<int:id>].  A return before the
    commit abandons the attributes already set. *)
Definition update_book (i : Z) (data : book_json) (db : database)
  : response * database :=
  match session_get_book i db with
  | None => (error 404 "Book not found", db)
  | Some book =>
    if book_json_empty data then (error 400 "No data provided", db)
    else
      let book := assign (j_title data) set_title book in
      if match j_author_id data with
         | Some v => negb (bool_decide (is_Some (session_get_author v db)))
         | None => false
         end
      then (error 404 "Author not found", db)
      else
        let book := assign (j_author_id data) set_author_id book in
        let book := assign (j_year data) set_year book in
        let book := assign (j_isbn data) set_isbn book in
        match commit_book i book db with
        | None => (internal_error, db)
        | Some db' =>
          match book_to_dict db' book with
          | Some d =>
            (mk_response 200 (BookResult (Some "Book updated successfully") d), db')
          | None => (internal_error, db')
          end
        end
  end.

(** [delete_book], [DELETE /api/books/<int:id>] *)
Definition delete_book (i : Z) (db : database) : response * database :=
  match session_get_book i db with
  | None => (error 404 "Book not found", db)
  | Some book =>
    (mk_response 200 (Done "Book deleted successfully"), commit_delete_book i db)
  end.

(** *** Author routes *)

(** [get_authors], [GET /api/authors] *)
Definition get_authors (db : database) : response :=
  let all := authors db in
  match mapM (author_to_dict db true) all with
  | Some ds => mk_response 200 (AuthorList (length all) ds)
  | None => internal_error
  end.

(** [get_author], [GET /api/authors/<int:id>] *)
Definition get_author (i : Z) (db : database) : response :=
  match session_get_author i db with
  | None => error 404 "Author not found"
  | Some author =>
    match author_to_dict db true author with
    | Some d => mk_response 200 (AuthorResult None d)
    | None => internal_error
    end
  end.

(** [create_author], [POST /api/authors] *)
Definition create_author (data : author_json) (db : database)
  : response * database :=
  if author_json_empty data then (error 400 "No data provided", db)
  else if negb (truthy_str (j_name data)) || negb (truthy_str (j_city data))
  then (error 400 "Name and city are required", db)
  else
    subscript (j_name data) (λ data_name,
    match first_author_by_name data_name db with
    | Some existing => (error 400 "Author already exists", db)
    | None =>
      subscript (j_city data) (λ data_city,
      let new_author := Author.mk (next_author_id db) data_name data_city in
      match commit_new_author new_author db with
      | None => (internal_error, db)
      | Some db' =>
        match author_to_dict db' true new_author with
        | Some d =>
          (mk_response 201 (AuthorResult (Some "Author created successfully") d), db')
        | None => (internal_error, db')
        end
      end) db
    end) db.

(** [update_author], [PUT /api/authors/<int:id>] *)
Definition update_author (i : Z) (data : author_json) (db : database)
  : response * database :=
  match session_get_author i db with
  | None => (error 404 "Author not found", db)
  | Some author =>
    if author_json_empty data then (error 400 "No data provided", db)
    else
      let author :=
        match j_name data with
        | Some v => Author.mk (Author.id author) v (Author.city author)
        | None => author
        end in
      let author :=
        match j_city data with
        | Some v => Author.mk (Author.id author) (Author.name author) v
        | None => author
        end in
      match commit_author i author db with
      | None => (internal_error, db)
      | Some db' =>
        match author_to_dict db' true author with
        | Some d =>
          (mk_response 200 (AuthorResult (Some "Author updated successfully") d), db')
        | None => (internal_error, db')
        end
      end
  end.

(** [delete_author], [DELETE /api/authors/<int:id>] *)
Definition delete_author (i : Z) (db : database) : response * database :=
  match session_get_author i db with
  | None => (error 404 "Author not found", db)
  | Some author =>
    (mk_response 200 (Done "Author deleted successfully"),
     commit_delete_author i db)
  end.

(** *** Search *)

(** [query.join(Author).filter(Author.name.ilike(pattern))]: the books
    whose author row exists and has a matching name. *)
Definition author_name_ilike (pattern : string) (db : database) (b : Book.t)
  : bool :=
  match session_get_author (Book.author_id b) db with
  | Some a => ilike (Author.name a) pattern
  | None => false
  end.

Definition join_author_ilike (pattern : string) (db : database)
           (query : list Book.t) : list Book.t :=
  filter (λ b, author_name_ilike pattern db b = true) query.

(** [query.filter_by(year=y)], for a year the driver binds ([int64]).
    [filter_by] resolves the keyword on the entity joined last; once the
    query was joined to [Author], which has no [year], building the
    filter raises ([None]). *)
Definition filter_by_year (joined : bool) (y : Z) (query : list Book.t)
  : option (list Book.t) :=
  if joined then None
  else Some (filter (λ b, Book.year b = Some y) query).

(** [search_books], [GET /api/books/search] *)
Definition search_books (args : gmap string string) (db : database) : response :=
  let query := books db in
  let title := args !! "q" in
  let query :=
    match title with
    | Some t => if nonempty t
                then filter (λ b, ilike (Book.title b) (contains_pattern t) = true) query
                else query
    | None => query
    end in
  let author := args !! "author" in
  let query :=
    match author with
    | Some a => if nonempty a
                then join_author_ilike (contains_pattern a) db query
                else query
    | None => query
    end in
  let year := args_get_int args "year" in
  let query :=
    match year with
    | Some y => if negb (y =? 0)
                then filter_by_year (truthy_str author) y query
                else Some query
    | None => Some query
    end in
  match query ≫= λ found, pair found <$> books_to_dicts db found with
  | Some (found, ds) => mk_response 200 (BookList (length found) ds)
  | None => internal_error
  end.

(** *** Pagination *)

(** What [Query.paginate] returns. *)
Record pagination := mk_pagination {
  items : list Book.t;
  total : Z;
  pages : Z;
  has_next : bool;
  has_prev : bool;
}.

(** [query.paginate(page=page, per_page=per_page, error_out=False)] of
    Flask-SQLAlchemy 3: a page below 1 becomes 1 and a page size below 1
    becomes 20; the items are the [LIMIT per_page OFFSET (page - 1) *
    per_page] slice, for an offset the driver binds ([int64]); the page
    count is the total divided by the page size, rounded up, and 0 for
    an empty result. *)
Definition paginate (query : list Book.t) (page per_page : Z) : pagination :=
  let page := if page <? 1 then 1 else page in
  let per_page := if per_page <? 1 then 20 else per_page in
  let total := Z.of_nat (length query) in
  let pages := if total =? 0 then 0 else (total + per_page - 1) / per_page in
  {| items := take (Z.to_nat per_page)
                   (drop (Z.to_nat ((page - 1) * per_page)) query);
     total := total;
     pages := pages;
     has_next := page <? pages;
     has_prev := 1 <? page |}.

(** *** Ordering *)

(** A value as SQLite orders it: null before every integer, integers
    before every text. *)
Inductive sql_value :=
| SqlNull
| SqlInt (z : Z)
| SqlText (s : string).

Definition sql_leb (x y : sql_value) : bool :=
  match x, y with
  | SqlNull, _ => true
  | _, SqlNull => false
  | SqlInt a, SqlInt b => a <=? b
  | SqlInt _, SqlText _ => true
  | SqlText _, SqlInt _ => false
  | SqlText a, SqlText b => String.leb a b
  end.

(** The sortable columns of [Book]. *)
Inductive column :=
| Book_id
| Book_title
| Book_year
| Book_isbn
| Book_created_at.

Definition column_value (c : column) (b : Book.t) : sql_value :=
  match c with
  | Book_id => SqlInt (Book.id b)
  | Book_title => SqlText (Book.title b)
  | Book_year => from_option SqlInt SqlNull (Book.year b)
  | Book_isbn => from_option SqlText SqlNull (Book.isbn b)
  | Book_created_at => from_option SqlInt SqlNull (Book.created_at b)
  end.

(** The order of the rows under [ORDER BY c ASC] and [ORDER BY c DESC]. *)
Definition column_le (c : column) (descending : bool) (x y : Book.t) : Prop :=
  if descending
  then sql_leb (column_value c y) (column_value c x)
  else sql_leb (column_value c x) (column_value c y).

#[export] Instance column_le_dec c descending x y :
  Decision (column_le c descending x y).
Proof. unfold column_le. destruct descending; apply _. Defined.

(** [query.order_by(column.asc())] and [query.order_by(column.desc())] *)
Definition order_by (c : column) (descending : bool) (query : list Book.t)
  : list Book.t :=
  merge_sort (column_le c descending) query.

(** [get_books_paginated], [GET /api/books/paginated] *)
Definition get_books_paginated (args : gmap string string) (db : database)
  : response :=
  let page := default 1 (args_get_int args "page") in
  let per_page := default 5 (args_get_int args "per_page") in
  let per_page := Z.min per_page 100 in
  let pagination := paginate (order_by Book_id false (books db)) page per_page in
  match books_to_dicts db (items pagination) with
  | Some ds =>
    mk_response 200
      (BookPage page per_page (total pagination) (pages pagination)
                (has_next pagination) (has_prev pagination) ds)
  | None => internal_error
  end.

(** The whitelist of [get_books_sorted]. *)
Definition allowed_sorts : gmap string column :=
  list_to_map [ ("id", Book_id); ("title", Book_title); ("year", Book_year);
                ("isbn", Book_isbn); ("created_at", Book_created_at) ].

(** [get_books_sorted], [GET /api/books/sorted] *)
Definition get_books_sorted (args : gmap string string) (db : database)
  : response :=
  let sort_field := default "id" (args !! "sort") in
  let order := default "asc" (args !! "order") in
  let sort_column := default Book_id (allowed_sorts !! sort_field) in
  let query :=
    if decide (lower order = "desc")
    then order_by sort_column true (books db)
    else order_by sort_column false (books db) in
  match books_to_dicts db query with
  | Some ds => mk_response 200 (BookSorted sort_field order (length query) ds)
  | None => internal_error
  end.

(** *** Sample data *)

Definition empty_database : database := mk_database [] [].

(** [session.add_all(rows); session.commit()] for authors and for
    books: the rows are inserted in order, each under the next id. *)
Definition add_all_authors (rows : list (string * string)) (db : database)
  : option database :=
  foldl (λ acc row, acc ≫= λ d,
           commit_new_author (Author.mk (next_author_id d) row.1 row.2) d)
        (Some db) rows.

Definition add_all_books (now : Z) (rows : list (string * Z * string * Z))
           (db : database) : option database :=
  foldl (λ acc row, acc ≫= λ d,
           let '(t, y, i, a) := row in
           commit_new_book (Book.mk (next_book_id d) t (Some y) (Some i)
                                    (Some now) a) d)
        (Some db) rows.

(** [init_db]: seeds an empty [author] table with three authors and an
    empty [book] table with one book of each; [None] where the seeding
    raises. *)
Definition init_db (now : Z) (db : database) : option database :=
  db ← (if decide (length (authors db) = 0%nat)
        then add_all_authors [ ("Eric Matthes", "New York");
                               ("Miguel Grinberg", "Washington");
                               ("Robert C. Martin", "London") ] db
        else Some db);
  if decide (length (books db) = 0%nat) then
    eric ← first_author_by_name "Eric Matthes" db;
    miguel ← first_author_by_name "Miguel Grinberg" db;
    robert ← first_author_by_name "Robert C. Martin" db;
    add_all_books now
      [ ("Python Crash Course", 2019, "978-1593279288", Author.id eric);
        ("Flask Web Development", 2018, "978-1491991732", Author.id miguel);
        ("Clean Code", 2008, "978-0132350884", Author.id robert) ] db
  else Some db.

(** The database right after [init_db] ran on empty tables at time
    [0]. *)
Definition seeded : database := default empty_database (init_db 0 empty_database).

(** *** Notions used in the specifications *)

(** Every book references an author of the [author] table: the foreign
    key of [Book.author_id]. *)
Definition referential_integrity (db : database) : Prop :=
  ∀ b, b ∈ books db → Book.author_id b ∈ Author.id <$> authors db.

(** The ids of the books a response lists, in the order it lists
    them. *)
Definition listed_ids (r : response) : list Z :=
  match payload r with
  | BookList _ l | BookSorted _ _ _ l | BookPage _ _ _ _ _ _ l => d_id <$> l
  | BookResult _ d => [d_id d]
  | _ => []
  end.

(** The book row and the document that [create_book] builds. *)
Definition created_book (now : Z) (data : book_json) (db : database)
           (t : string) (a : Z) : Book.t :=
  Book.mk (next_book_id db) t (mjoin (j_year data)) (mjoin (j_isbn data))
          (Some now) a.

Definition created_book_dict (now : Z) (data : book_json) (db : database)
           (t : string) (author : Author.t) : book_dict :=
  mk_book_dict (next_book_id db) t (mjoin (j_year data)) (mjoin (j_isbn data))
               (Author.id author, Author.name author) (Some now).

(** What the schema promises of the tables: the primary keys, the
    author names and the non-null isbns are unique. *)
Definition unique_keys (db : database) : Prop :=
  NoDup (Book.id <$> books db)
  ∧ NoDup (Author.id <$> authors db)
  ∧ NoDup (Author.name <$> authors db)
  ∧ NoDup (omap Book.isbn (books db)).

(** The author row that [update_author] commits for [old]. *)
Definition updated_author (data : author_json) (old : Author.t) : Author.t :=
  Author.mk (Author.id old) (default (Author.name old) (j_name data))
            (default (Author.city old) (j_city data)).

(** What a search asks of a book: every filter the request supplies
    holds of it. *)
Definition search_match (args : gmap string string) (db : database)
           (b : Book.t) : Prop :=
  (∀ t, args !! "q" = Some t → nonempty t = true →
        ilike (Book.title b) (contains_pattern t) = true)
  ∧ (∀ a, args !! "author" = Some a → nonempty a = true →
          author_name_ilike (contains_pattern a) db b = true)
  ∧ (∀ y, args_get_int args "year" = Some y → y ≠ 0 → Book.year b = Some y).

(** The field names [get_books_sorted] accepts. *)
Definition sortable_fields : list string :=
  ["id"; "title"; "year"; "isbn"; "created_at"].

End Part4.

(** ** Facts about the shared helpers *)

Ltac split_all := repeat match goal with |- _ ∧ _ => split end.

Lemma max_id_ge (ids : list Z) (i : Z) : i ∈ ids → i ≤ max_id ids.
Proof.
  induction ids as [|j ids IH]; intros Hin.
  - by apply elem_of_nil in Hin.
  - apply elem_of_cons in Hin as [->|Hin]; simpl; [lia|].
    specialize (IH Hin). lia.
Qed.

Lemma max_id_nonneg (ids : list Z) : 0 ≤ max_id ids.
Proof. induction ids as [|j ids IH]; simpl; lia. Qed.

(** First row matching a predicate: [fetchone()], [first()] and
    [session.get] all read the head of a filtered table. *)
Section first_match.
Context {A : Type} (P : A → Prop) `{!∀ x, Decision (P x)}.

Lemma first_match_None (l : list A) :
  head (filter P l) = None ↔ ∀ x, x ∈ l → ¬ P x.
Proof.
  rewrite head_None. split.
  - intros Hnil x Hx HP. by apply (filter_nil_not_elem_of P l x).
  - intros Hno. induction l as [|y l IH]; [done|].
    rewrite filter_cons. case_decide as Hy.
    + exfalso. apply (Hno y); [left|done].
    + apply IH. intros x Hx. apply Hno. by right.
Qed.

Lemma first_match_Some (l : list A) (x : A) :
  head (filter P l) = Some x → x ∈ l ∧ P x.
Proof.
  intros Hx. apply head_Some_elem_of in Hx.
  apply list_elem_of_filter in Hx. tauto.
Qed.

Lemma first_match_is_Some (l : list A) :
  is_Some (head (filter P l)) ↔ ∃ x, x ∈ l ∧ P x.
Proof.
  split.
  - intros [x Hx]. exists x. by apply first_match_Some.
  - intros (x & Hx & HP). destruct (head (filter P l)) eqn:Hh; [done|].
    exfalso. by apply (proj1 (first_match_None l) Hh x).
Qed.

Lemma first_match_snoc_fresh (l : list A) (x : A) :
  (∀ y, y ∈ l → ¬ P y) → P x → head (filter P (l ++ [x])) = Some x.
Proof.
  intros Hl Hx. rewrite filter_app.
  apply first_match_None, head_None in Hl. rewrite Hl. simpl.
  rewrite filter_cons. by case_decide.
Qed.
End first_match.

Lemma filter_all {A} (P : A → Prop) `{!∀ x, Decision (P x)} (l : list A) :
  (∀ x, x ∈ l → P x) → filter P l = l.
Proof.
  induction l as [|y l IH]; intros Hall; [done|].
  rewrite filter_cons, decide_True by (apply Hall; left).
  f_equal. apply IH. intros x Hx. apply Hall. by right.
Qed.

Lemma max_id_le (ids : list Z) (m : Z) :
  0 ≤ m → (∀ i, i ∈ ids → i ≤ m) → max_id ids ≤ m.
Proof.
  intros Hm. induction ids as [|j ids IH]; intros Hall; simpl; [done|].
  apply Z.max_lub.
  - apply Hall. left.
  - apply IH. intros i Hi. apply Hall. by right.
Qed.

(** Rows with a unique key: the one row under a key, and the others. *)
Section keyed_rows.
Context {A K : Type} `{!EqDecision K} (key : A → K).

Lemma keyed_split (l : list A) (x : A) :
  NoDup (key <$> l) → x ∈ l →
  ∃ l1 l2, l = l1 ++ x :: l2 ∧ ∀ y, y ∈ l1 ++ l2 → key y ≠ key x.
Proof.
  intros Hnd Hx. apply list_elem_of_split in Hx as (l1 & l2 & ->).
  exists l1, l2. split; [done|]. intros y Hy Heq.
  rewrite fmap_app, fmap_cons in Hnd.
  apply NoDup_app in Hnd as (_ & Hdisj & Hnd2).
  apply NoDup_cons in Hnd2 as [Hnot _].
  apply elem_of_app in Hy as [Hy|Hy].
  - apply (Hdisj (key y)); [by apply list_elem_of_fmap_2|]. rewrite Heq. left.
  - apply Hnot. rewrite <- Heq. by apply list_elem_of_fmap_2.
Qed.

Lemma fmap_unchanged (f : A → A) (l : list A) :
  (∀ y, y ∈ l → f y = y) → f <$> l = l.
Proof.
  induction l as [|y l IH]; intros Hf; [done|].
  rewrite fmap_cons, Hf by left. f_equal. apply IH.
  intros z Hz. apply Hf. by right.
Qed.

Lemma replace_keyed (l1 l2 : list A) (x b : A) (i : K) :
  key x = i → (∀ y, y ∈ l1 ++ l2 → key y ≠ i) →
  (λ r, if decide (key r = i) then b else r) <$> (l1 ++ x :: l2)
  = l1 ++ b :: l2.
Proof.
  intros Hx Hothers. rewrite fmap_app, fmap_cons, decide_True by done.
  rewrite !fmap_unchanged; [done| |].
  - intros y Hy. rewrite decide_False; [done|].
    apply Hothers, elem_of_app. by right.
  - intros y Hy. rewrite decide_False; [done|].
    apply Hothers, elem_of_app. by left.
Qed.

Lemma others_keyed (l1 l2 : list A) (x : A) (i : K) :
  key x = i → (∀ y, y ∈ l1 ++ l2 → key y ≠ i) →
  filter (λ r, key r ≠ i) (l1 ++ x :: l2) = l1 ++ l2.
Proof.
  intros Hx Hothers. rewrite filter_app, filter_cons.
  rewrite decide_False by (intros ?; done).
  rewrite !filter_all; [done| |].
  - intros y Hy. apply Hothers, elem_of_app. by right.
  - intros y Hy. apply Hothers, elem_of_app. by left.
Qed.

Lemma replace_lookup (l : list A) (b : A) (i : K) :
  key b = i →
  is_Some (head (filter (λ r, key r = i) l)) →
  head (filter (λ r, key r = i)
               ((λ r, if decide (key r = i) then b else r) <$> l))
  = Some b.
Proof.
  intros Hb. induction l as [|r l IH]; intros Hsome.
  - by destruct Hsome.
  - rewrite fmap_cons, filter_cons. rewrite filter_cons in Hsome.
    destruct (decide (key r = i)) as [Hr|Hr].
    + by rewrite decide_True.
    + rewrite decide_False by done. by apply IH.
Qed.

Lemma replace_others (l : list A) (b : A) (i : K) :
  key b = i →
  filter (λ r, key r ≠ i)
         ((λ r, if decide (key r = i) then b else r) <$> l)
  = filter (λ r, key r ≠ i) l.
Proof.
  intros Hb. induction l as [|r l IH]; [done|].
  rewrite fmap_cons, !filter_cons.
  destruct (decide (key r = i)) as [Hr|Hr].
  - rewrite !decide_False by (intros ?; congruence). exact IH.
  - rewrite !decide_True by done. by rewrite IH.
Qed.

Lemma replace_keys (l : list A) (b : A) (i : K) :
  key b = i →
  key <$> ((λ r, if decide (key r = i) then b else r) <$> l) = key <$> l.
Proof.
  intros Hb. induction l as [|r l IH]; [done|].
  rewrite !fmap_cons, IH. f_equal. case_decide; congruence.
Qed.
End keyed_rows.

Lemma NoDup_replace_middle {A} (l1 l2 : list A) (a b : A) :
  NoDup (l1 ++ a :: l2) → b ∉ l1 ++ l2 → NoDup (l1 ++ b :: l2).
Proof.
  rewrite <- !Permutation_middle, !NoDup_cons. tauto.
Qed.

Lemma NoDup_fmap_filter {A B} (f : A → B) (P : A → Prop)
      `{!∀ x, Decision (P x)} (l : list A) :
  NoDup (f <$> l) → NoDup (f <$> filter P l).
Proof.
  intros Hnd. eapply sublist_NoDup; [exact Hnd|].
  apply fmap_sublist, sublist_filter.
Qed.

Lemma not_elem_of_omap {A B} (f : A → option B) (l : list A) (y : B) :
  Some y ∉ f <$> l ↔ y ∉ omap f l.
Proof.
  rewrite list_elem_of_fmap, list_elem_of_omap. split.
  - intros Hno (x & Hx & Hf). apply Hno. by exists x.
  - intros Hno (x & Hf & Hx). apply Hno. by exists x.
Qed.

Lemma omap_cons_case {A B} (f : A → option B) (a : A) (l : list A) :
  omap f (a :: l) = match f a with Some y => y :: omap f l | None => omap f l end.
Proof. done. Qed.

Lemma NoDup_omap_filter {A B} (f : A → option B) (P : A → Prop)
      `{!∀ x, Decision (P x)} (l : list A) :
  NoDup (omap f l) → NoDup (omap f (filter P l)).
Proof.
  induction l as [|a l IH]; [done|].
  rewrite filter_cons, omap_cons_case. intros Hnd.
  assert (NoDup (omap f l)) as Hl.
  { destruct (f a); [by apply NoDup_cons in Hnd as [_ ?]|done]. }
  case_decide; [|by apply IH].
  rewrite omap_cons_case. destruct (f a) as [y|] eqn:Hfa; [|by apply IH].
  apply NoDup_cons in Hnd as [Hy _]. apply NoDup_cons. split; [|by apply IH].
  intros Hin. apply Hy. apply list_elem_of_omap in Hin as (x & Hx & Hf).
  apply list_elem_of_omap. exists x. split; [|done].
  by apply list_elem_of_filter in Hx as [_ ?].
Qed.

Lemma NoDup_omap_replace {A B} (f : A → option B) (l1 l2 : list A) (a b : A) :
  NoDup (omap f (l1 ++ a :: l2)) →
  (∀ y, f b = Some y → y ∉ omap f (l1 ++ l2)) →
  NoDup (omap f (l1 ++ b :: l2)).
Proof.
  rewrite !omap_app, !omap_cons_case. intros Hnd Hb.
  assert (NoDup (omap f l1 ++ omap f l2)) as Hrest.
  { destruct (f a); [|done].
    rewrite <- Permutation_middle in Hnd. by apply NoDup_cons in Hnd as [_ ?]. }
  destruct (f b) as [y|]; [|done].
  rewrite <- Permutation_middle. apply NoDup_cons. split; [|done].
  by apply Hb.
Qed.

Lemma NoDup_snoc_fresh {A} (l : list A) (x : A) :
  NoDup l → x ∉ l → NoDup (l ++ [x]).
Proof.
  intros Hl Hx. apply NoDup_app. split; [done|].
  split; [|apply NoDup_singleton].
  intros y Hy Hy'. by apply list_elem_of_singleton in Hy' as ->.
Qed.

(** *** [LIKE] with a pattern free of wildcards is a substring test *)

Lemma ascii_lower_idemp (c : ascii) : ascii_lower (ascii_lower c) = ascii_lower c.
Proof. destruct c as [[] [] [] [] [] [] [] []]; reflexivity. Qed.

Lemma ascii_lower_not_wild (c : ascii) :
  c ≠ "%"%char → c ≠ "_"%char →
  ascii_lower c ≠ "%"%char ∧ ascii_lower c ≠ "_"%char.
Proof.
  destruct c as [[] [] [] [] [] [] [] []]; intros H1 H2;
    split; intros Heq; vm_compute in Heq; congruence.
Qed.

Lemma chars_lower (s : string) :
  list_ascii_of_string (lower s) = ascii_lower <$> list_ascii_of_string s.
Proof. induction s as [|c s IH]; [done|]. simpl. by rewrite IH. Qed.

Lemma chars_append (a b : string) :
  list_ascii_of_string (String.append a b)
  = list_ascii_of_string a ++ list_ascii_of_string b.
Proof. induction a as [|c a IH]; [done|]. simpl. by rewrite IH. Qed.

Lemma like_chars_percent_unfold (p s : list ascii) :
  like_chars ("%"%char :: p) s
  = like_chars p s
    || match s with [] => false | _ :: s' => like_chars ("%"%char :: p) s' end.
Proof. by destruct s. Qed.

Lemma like_chars_percent (p s : list ascii) :
  like_chars ("%"%char :: p) s = true
  ↔ ∃ l1 s', s = l1 ++ s' ∧ like_chars p s' = true.
Proof.
  induction s as [|d s IH]; rewrite like_chars_percent_unfold.
  - rewrite orb_false_r. split.
    + intros H. by exists [], [].
    + intros (l1 & s' & Heq & H). symmetry in Heq.
      by apply app_eq_nil in Heq as [-> ->].
  - rewrite orb_true_iff, IH. split.
    + intros [H | (l1 & s' & -> & H)].
      * by exists [], (d :: s).
      * by exists (d :: l1), s'.
    + intros (l1 & s' & Heq & H). destruct l1 as [|d' l1].
      * simpl in Heq. subst s'. by left.
      * injection Heq as -> ->. right. by exists l1, s'.
Qed.

Lemma like_chars_literal (p rest s : list ascii) :
  wildcard_free p →
  like_chars (p ++ rest) s = true
  ↔ ∃ m s', s = m ++ s' ∧ ascii_lower <$> m = ascii_lower <$> p
            ∧ like_chars rest s' = true.
Proof.
  revert s. induction p as [|c p IH]; intros s Hfree.
  - simpl. split.
    + intros H. by exists [], s.
    + intros (m & s' & -> & Hm & H). by destruct m.
  - assert (c ≠ "%"%char ∧ c ≠ "_"%char) as [Hc1 Hc2] by (apply Hfree; left).
    assert (wildcard_free p) as Hp by (intros c' Hc'; apply Hfree; by right).
    simpl. rewrite (proj2 (Ascii.eqb_neq _ _) Hc1), (proj2 (Ascii.eqb_neq _ _) Hc2).
    destruct s as [|d s].
    + split; [done|]. intros (m & s' & Heq & Hm & _).
      destruct m; [done|]. done.
    + simpl. rewrite andb_true_iff, (IH s Hp), Ascii.eqb_eq. split.
      * intros (Hcd & m & s' & -> & Hm & H).
        exists (d :: m), s'. split; [done|]. split; [|done].
        rewrite !fmap_cons. by rewrite Hm, Hcd.
      * intros (m & s' & Heq & Hm & H). destruct m as [|d' m]; [done|].
        injection Heq as -> ->. rewrite !fmap_cons in Hm.
        injection Hm as Hcd Hm. split; [done|]. by exists m, s'.
Qed.

Lemma like_chars_contains (p s : list ascii) :
  wildcard_free p →
  like_chars ("%"%char :: p ++ ["%"%char]) s = true
  ↔ ∃ l1 m l2, s = l1 ++ m ++ l2 ∧ ascii_lower <$> m = ascii_lower <$> p.
Proof.
  intros Hfree. rewrite like_chars_percent. split.
  - intros (l1 & s' & -> & H).
    apply (like_chars_literal p ["%"%char] s' Hfree) in H
      as (m & l2 & -> & Hm & _).
    by exists l1, m, l2.
  - intros (l1 & m & l2 & -> & Hm). exists l1, (m ++ l2). split; [done|].
    apply (like_chars_literal p ["%"%char] _ Hfree).
    exists m, l2. split; [done|]. split; [done|].
    apply like_chars_percent. exists l2, []. by rewrite app_nil_r.
Qed.

Lemma lower_segment (l l1 m l2 : list ascii) :
  ascii_lower <$> l = l1 ++ m ++ l2 → ascii_lower <$> m = m.
Proof.
  intros Heq.
  assert (Hfix : Forall (λ c, ascii_lower c = c) (ascii_lower <$> l)).
  { apply Forall_fmap, Forall_forall. intros c _. apply ascii_lower_idemp. }
  rewrite Heq in Hfix.
  apply Forall_app in Hfix as [_ Hfix]. apply Forall_app in Hfix as [Hfix _].
  clear Heq. induction Hfix as [|c m Hc _ IH]; [done|].
  rewrite fmap_cons. by rewrite Hc, IH.
Qed.

Lemma ilike_contains (v q : string) :
  wildcard_free (list_ascii_of_string q) →
  ilike v (contains_pattern q) = true
  ↔ ∃ pre post,
      list_ascii_of_string (lower v)
      = pre ++ list_ascii_of_string (lower q) ++ post.
Proof.
  intros Hfree. unfold ilike, contains_pattern.
  rewrite (chars_lower (String.append _ _)), !chars_append, !fmap_app.
  change (ascii_lower <$> list_ascii_of_string "%") with ["%"%char].
  cbn [app]. rewrite like_chars_contains.
  2:{ intros c Hc. apply list_elem_of_fmap in Hc as (c0 & -> & Hc0).
      destruct (Hfree c0 Hc0). by apply ascii_lower_not_wild. }
  rewrite !chars_lower. split.
  - intros (l1 & m & l2 & Heq & Hm). exists l1, l2.
    rewrite Heq. do 2 f_equal.
    rewrite <- (lower_segment _ _ _ _ Heq), Hm.
    rewrite <- list_fmap_compose. apply list_fmap_ext.
    intros i c _. apply ascii_lower_idemp.
  - intros (pre & post & Heq).
    exists pre, (ascii_lower <$> list_ascii_of_string q), post.
    split; [exact Heq|].
    rewrite <- !list_fmap_compose. apply list_fmap_ext.
    intros i c _. simpl. by rewrite !ascii_lower_idemp.
Qed.

Example py_int_plain : py_int "200" = Some 200.
Proof. reflexivity. Qed.

Example py_int_padded : py_int " -1_000 " = Some (-1000).
Proof. reflexivity. Qed.

Example py_int_word : py_int "abc" = None.
Proof. reflexivity. Qed.

Example py_int_empty : py_int EmptyString = None.
Proof. reflexivity. Qed.

Example py_int_bad_underscore : py_int "1__0" = None ∧ py_int "_1" = None ∧ py_int "1_" = None.
Proof. done. Qed.

Example py_int_separator :
  py_int (String (ascii_of_nat 28) "2") = None
  ∧ py_int (String (ascii_of_nat 11) "2") = Some 2.
Proof. done. Qed.

Example ilike_substring : ilike "Python Crash Course" (contains_pattern "crash") = true.
Proof. reflexivity. Qed.

Example ilike_wildcard : ilike "Clean Code" (contains_pattern "c_de") = true.
Proof. reflexivity. Qed.

Example ilike_miss : ilike "Clean Code" (contains_pattern "flask") = false.
Proof. reflexivity. Qed.

(** ** Theorems: part 1 *)

Module Part1Facts.
Import Part1.

Lemma sample_index_in_range (n : nat) :
  is_Some (sample_students !! (n `mod` length sample_students)%nat).
Proof.
  apply lookup_lt_is_Some. apply Nat.mod_upper_bound. simpl. lia.
Qed.

(** C10: every request to [/add] answers with the confirmation page and
    appends exactly one row; the row carries the sample at index
    [count mod 5], where [count] is the number of rows before the
    request, under a fresh id; the choice depends on the table only
    through that count, and it repeats with period five. *)
Theorem add_sample_student_next (t : table) :
  ∃ n e c,
    sample_students !! (length (rows t) `mod` 5)%nat = Some (n, e, c)
    ∧ add_sample_student t
      = (Page added_page,
         {| rows := rows t ++ [mk_student (next_rowid t) n e c];
            seq := next_rowid t |})
    ∧ length (rows (add_sample_student t).2) = S (length (rows t))
    ∧ (∀ r, r ∈ rows t → id r < next_rowid t)
    ∧ (∀ t', length (rows t') = length (rows t) →
         ∃ i, rows (add_sample_student t').2
              = rows t' ++ [mk_student i n e c])
    ∧ sample_students !! ((length (rows t) + 5) `mod` 5)%nat = Some (n, e, c).
Proof.
  destruct (sample_index_in_range (length (rows t))) as [[[n e] c] Hs].
  change (length sample_students) with 5%nat in Hs.
  exists n, e, c. split; [exact Hs|].
  assert (Hrun : ∀ t', length (rows t') = length (rows t) →
    add_sample_student t'
    = (Page added_page,
       {| rows := rows t' ++ [mk_student (next_rowid t') n e c];
          seq := next_rowid t' |})).
  { intros t' Hlen. unfold add_sample_student, count_students.
    change (length sample_students) with 5%nat. by rewrite Hlen, Hs. }
  split; [by apply Hrun|].
  split; [rewrite (Hrun t eq_refl); simpl; rewrite length_app; simpl; lia|].
  split.
  { intros r Hr. unfold next_rowid.
    assert (id r ≤ max_id (id <$> rows t)).
    { apply max_id_ge. apply list_elem_of_fmap. by exists r. }
    lia. }
  split.
  { intros t' Hlen. exists (next_rowid t'). by rewrite (Hrun t' Hlen). }
  replace ((length (rows t) + 5) `mod` 5)%nat
    with (length (rows t) `mod` 5)%nat; [exact Hs|].
  rewrite <- (Nat.Div0.add_mod_idemp_r _ 5 5). simpl.
  by rewrite Nat.add_0_r.
Qed.

(** *** Runs of requests to [/add] *)

Lemma add_requests_rows (n : nat) :
  length (rows (add_requests n empty_table)) = n
  ∧ seq (add_requests n empty_table) = Z.of_nat n
  ∧ ∀ k r, rows (add_requests n empty_table) !! k = Some r →
           sample_row k = Some r.
Proof.
  induction n as [|n (Hlen & Hseq & Hrows)]; [done|].
  change (add_requests (S n) empty_table)
    with (add_sample_student (add_requests n empty_table)).2.
  set (t := add_requests n empty_table) in *.
  assert (Hids : ∀ i, i ∈ id <$> rows t → i ≤ Z.of_nat n).
  { intros i Hi. apply list_elem_of_fmap in Hi as (r & -> & Hr).
    apply list_elem_of_lookup in Hr as [k Hk].
    pose proof (lookup_lt_Some _ _ _ Hk) as Hlt.
    apply Hrows in Hk. unfold sample_row in Hk.
    destruct (sample_students !! _); simplify_eq/=. lia. }
  assert (Hnext : next_rowid t = Z.of_nat n + 1).
  { unfold next_rowid. rewrite Hseq.
    pose proof (max_id_le (id <$> rows t) (Z.of_nat n) ltac:(lia) Hids).
    pose proof (max_id_nonneg (id <$> rows t)). lia. }
  unfold add_sample_student, count_students.
  destruct (sample_index_in_range (length (rows t))) as [[[nm e] c] Hs].
  rewrite Hs. unfold insert_student. cbn [snd rows seq].
  rewrite Hnext, length_app, Hlen. cbn [length].
  split; [lia|]. split; [lia|].
  intros k r Hk. destruct (decide (k < n)%nat) as [Hlt|Hge].
  - rewrite lookup_app_l in Hk by lia. by apply Hrows.
  - rewrite lookup_app_r in Hk by lia. rewrite Hlen in Hk.
    destruct (k - n)%nat as [|?] eqn:Hkn; [|done].
    assert (k = n) as -> by lia. cbn [lookup list_lookup] in Hk.
    injection Hk as <-.
    unfold sample_row. rewrite <- Hlen at 1. by rewrite Hs.
Qed.

(** X1: [n] requests to [/add] on the empty table leave [n] rows; the
    row at position [k] has id [k + 1] and carries the sample at index
    [k mod 5], so the samples repeat in order every five requests. *)
Theorem add_requests_cycle (n k : nat) :
  (k < n)%nat →
  length (rows (add_requests n empty_table)) = n
  ∧ ∃ nm e c,
      sample_students !! (k `mod` 5)%nat = Some (nm, e, c)
      ∧ rows (add_requests n empty_table) !! k
        = Some (mk_student (Z.of_nat k + 1) nm e c).
Proof.
  intros Hk. destruct (add_requests_rows n) as (Hlen & _ & Hrows).
  split; [done|].
  destruct (lookup_lt_is_Some_2 (rows (add_requests n empty_table)) k)
    as [r Hr]; [lia|].
  specialize (Hrows k r Hr). unfold sample_row in Hrows.
  change (length sample_students) with 5%nat in Hrows.
  destruct (sample_students !! (k `mod` 5)%nat) as [[[nm e] c]|]; [|done].
  exists nm, e, c. split; [done|]. simpl in Hrows. by simplify_eq.
Qed.

Lemma add_requests_cycle_witness :
  (6 < 7)%nat
  ∧ length (rows (add_requests 7 empty_table)) = 7%nat
  ∧ ∃ nm e c,
      sample_students !! (6 `mod` 5)%nat = Some (nm, e, c)
      ∧ rows (add_requests 7 empty_table) !! 6%nat
        = Some (mk_student (Z.of_nat 6 + 1) nm e c).
Proof.
  split; [lia|]. apply (add_requests_cycle 7 6). lia.
Defined.

Example add_requests_7 :
  email <$> rows (add_requests 7 empty_table)
  = [ "student1@example.com"; "student2@example.com"; "student3@example.com";
      "student4@example.com"; "student5@example.com"; "student1@example.com";
      "student2@example.com" ].
Proof. vm_compute. reflexivity. Qed.

End Part1Facts.

(** ** Theorems: part 2 *)

Module Part2Facts.
Import Part2.

Lemma select_by_email_None (e : string) (t : table) :
  select_by_email e t = None ↔ e ∉ email <$> rows t.
Proof.
  unfold select_by_email. rewrite first_match_None, list_elem_of_fmap.
  split.
  - intros Hno (r & -> & Hr). by apply (Hno r).
  - intros Hno r Hr He. apply Hno. by exists r.
Qed.

Lemma select_by_id_None (i : Z) (t : table) :
  select_by_id i t = None ↔ i ∉ id <$> rows t.
Proof.
  unfold select_by_id. rewrite first_match_None, list_elem_of_fmap.
  split.
  - intros Hno (r & -> & Hr). by apply (Hno r).
  - intros Hno r Hr He. apply Hno. by exists r.
Qed.

Lemma delete_row_absent (i : Z) (t : table) :
  i ∉ id <$> rows t → delete_row i t = t.
Proof.
  intros Hi. destruct t as [rs sq]. unfold delete_row. simpl in *. f_equal.
  induction rs as [|r rs IH]; [done|].
  rewrite filter_cons. rewrite fmap_cons, not_elem_of_cons in Hi.
  destruct Hi as [Hne Hi]. case_decide; [|congruence].
  f_equal. by apply IH.
Qed.

(** C8: a POST of the add-student form whose email equals that of a row
    of the table inserts nothing, flashes [Email already exists!] and
    redirects to the add form; with an email no row holds it appends
    exactly one row, with the submitted fields under a fresh id,
    flashes the success message and redirects to the index. *)
Theorem add_student_duplicate_guard (t : table) (f : gmap string string)
        (n e c : string) :
  f !! "name" = Some n → f !! "email" = Some e → f !! "course" = Some c →
  (e ∈ email <$> rows t →
     add_student (mk_request POST f) t
     = mk_outcome (Redirect "add_student")
                  [("Email already exists!", "danger")] t)
  ∧ (e ∉ email <$> rows t →
     add_student (mk_request POST f) t
     = mk_outcome (Redirect "index")
                  [("Student added successfully!", "success")]
                  {| rows := rows t ++ [mk_student (next_rowid t) n e c];
                     seq := next_rowid t |}
     ∧ length (rows (db (add_student (mk_request POST f) t)))
       = S (length (rows t))
     ∧ ∀ r, r ∈ rows t → id r ≠ next_rowid t).
Proof.
  intros Hn He Hc. unfold add_student. simpl. rewrite Hn, He, Hc. split.
  - intros Hdup. destruct (select_by_email e t) eqn:Hsel; [done|].
    by apply select_by_email_None in Hsel.
  - intros Hfresh. rewrite (proj2 (select_by_email_None e t) Hfresh).
    unfold insert_student. rewrite decide_False by done.
    split; [done|]. split.
    + simpl. rewrite length_app. simpl. lia.
    + intros r Hr. unfold next_rowid.
      assert (id r ≤ max_id (id <$> rows t)).
      { apply max_id_ge. by apply list_elem_of_fmap_2. }
      lia.
Qed.

Lemma add_student_duplicate_guard_witness :
  add_student (mk_request POST (student_form "Bob" "ada@example.com" "Sets"))
              one_student
  = mk_outcome (Redirect "add_student")
               [("Email already exists!", "danger")] one_student
  ∧ add_student (mk_request POST (student_form "Bob" "bob@example.com" "Sets"))
                one_student
    = mk_outcome (Redirect "index")
                 [("Student added successfully!", "success")]
                 (mk_table [mk_student 1 "Ada" "ada@example.com" "Logic";
                            mk_student 2 "Bob" "bob@example.com" "Sets"] 2).
Proof.
  split.
  - apply (add_student_duplicate_guard one_student
             (student_form "Bob" "ada@example.com" "Sets")
             "Bob" "ada@example.com" "Sets");
      [reflexivity | reflexivity | reflexivity |].
    vm_compute. left.
  - apply (add_student_duplicate_guard one_student
             (student_form "Bob" "bob@example.com" "Sets")
             "Bob" "bob@example.com" "Sets");
      [reflexivity | reflexivity | reflexivity |].
    apply (bool_decide_unpack _). vm_compute. exact I.
Defined.

(** *** The index page *)

#[local] Instance newest_first_total : Total newest_first.
Proof. intros x y. unfold newest_first. lia. Qed.

#[local] Instance newest_first_trans : Transitive newest_first.
Proof. intros x y z. unfold newest_first. lia. Qed.

(** X2: the index page passes the search string on and lists the students
    newest first; without a search string, or with an empty one, it lists
    every row, and otherwise exactly the rows whose name matches the
    pattern [%search%], each as often as the table holds it. *)
Theorem index_lists_matches (args : gmap string string) (t : table) :
  (index args t).2 = args !! "search"
  ∧ StronglySorted (λ x y, id y ≤ id x) (index args t).1
  ∧ (index args t).1 ≡ₚ filter (found_by (args !! "search")) (rows t)
  ∧ (args !! "search" = None ∨ args !! "search" = Some EmptyString →
     (index args t).1 ≡ₚ rows t).
Proof.
  unfold index. split; [done|].
  assert (Hall : ∀ q, (∀ r, found_by q r) →
            filter (found_by q) (rows t) = rows t).
  { intros q Hq. apply filter_all. intros r _. apply Hq. }
  split; [|split].
  - destruct (args !! "search") as [q|]; [destruct (nonempty q)|]; simpl;
      apply (StronglySorted_merge_sort newest_first).
  - destruct (args !! "search") as [q|]; [destruct (nonempty q) eqn:Hq|]; simpl;
      rewrite merge_sort_Permutation.
    + erewrite list_filter_iff; [done|]. intros r. simpl. rewrite Hq. tauto.
    + rewrite Hall; [done|]. intros r. simpl. by rewrite Hq.
    + by rewrite Hall.
  - intros [-> | ->]; simpl; apply merge_sort_Permutation.
Qed.

Example index_search :
  name <$> (index {[ "search" := "AD" ]} one_student).1 = ["Ada"]
  ∧ (index {[ "search" := "bob" ]} one_student).1 = [].
Proof. done. Qed.

(** *** Editing and deleting *)

Lemma select_by_id_Some (i : Z) (t : table) (r : student) :
  select_by_id i t = Some r → r ∈ rows t ∧ id r = i.
Proof. apply (first_match_Some (λ r, id r = i)). Qed.

(** X3: a POST of the edit form for an existing student fails with
    status 500 and changes nothing when another student holds the
    submitted email; otherwise it stores the three submitted fields under
    the same id, leaves every other row and the id counter as they were,
    flashes the success message and redirects to the index. *)
Theorem edit_student_existing (i : Z) (t : table) (f : gmap string string)
        (n e c : string) :
  i ∈ id <$> rows t →
  f !! "name" = Some n → f !! "email" = Some e → f !! "course" = Some c →
  (e ∈ email <$> filter (λ r, id r ≠ i) (rows t) →
     edit_student i (mk_request POST f) t = mk_outcome ServerError [] t)
  ∧ (e ∉ email <$> filter (λ r, id r ≠ i) (rows t) →
     resp (edit_student i (mk_request POST f) t) = Redirect "index"
     ∧ flashed (edit_student i (mk_request POST f) t)
       = [("Student updated successfully!", "success")]
     ∧ select_by_id i (db (edit_student i (mk_request POST f) t))
       = Some (mk_student i n e c)
     ∧ filter (λ r, id r ≠ i) (rows (db (edit_student i (mk_request POST f) t)))
       = filter (λ r, id r ≠ i) (rows t)
     ∧ id <$> rows (db (edit_student i (mk_request POST f) t)) = id <$> rows t
     ∧ seq (db (edit_student i (mk_request POST f) t)) = seq t).
Proof.
  intros Hi Hn He Hc. unfold edit_student. simpl. rewrite Hn, He, Hc.
  unfold update_student. rewrite decide_True by done. split.
  - intros Hdup. by rewrite decide_True.
  - intros Hfree. rewrite decide_False by done. simpl.
    split; [done|]. split; [done|]. split; [|split; [|split; [|done]]].
    + unfold select_by_id. simpl.
      apply (replace_lookup id); [done|].
      destruct (select_by_id i t) eqn:Hsel; [by eexists|].
      by apply select_by_id_None in Hsel.
    + by apply (replace_others id).
    + by apply (replace_keys id).
Qed.

Lemma edit_student_existing_witness :
  edit_student 1 (mk_request POST (student_form "Ada L." "ada@example.com" "Sets"))
               one_student
  = mk_outcome (Redirect "index") [("Student updated successfully!", "success")]
               (mk_table [mk_student 1 "Ada L." "ada@example.com" "Sets"] 1).
Proof.
  assert (Hin : 1 ∈ id <$> rows one_student).
  { apply (bool_decide_unpack _). vm_compute. exact I. }
  destruct (edit_student_existing 1 one_student
              (student_form "Ada L." "ada@example.com" "Sets")
              "Ada L." "ada@example.com" "Sets" Hin) as [_ Hok];
    [reflexivity | reflexivity | reflexivity |].
  destruct Hok as (Hresp & _).
  { apply (bool_decide_unpack _). vm_compute. exact I. }
  clear Hresp. reflexivity.
Defined.

(** X4: after the delete route ran for an id that the route accepts and
    the database can bind (from 0 up to the largest signed 64-bit
    integer), no row has that id, so the edit form for it
    renders without a student; the rows with other ids and the id counter
    are as before; and the route answers with the same flash and redirect
    whether or not a row was deleted. *)
Theorem delete_student_then_get (i : Z) (t : table) (f : gmap string string) :
  route_id i →
  delete_student i t
  = mk_outcome (Redirect "index") [("Student deleted!", "danger")]
               (db (delete_student i t))
  ∧ (i ∉ id <$> rows (db (delete_student i t)))
  ∧ edit_student i (mk_request GET f) (db (delete_student i t))
    = mk_outcome (RenderEdit None) [] (db (delete_student i t))
  ∧ (∀ r, r ∈ rows (db (delete_student i t)) ↔ r ∈ rows t ∧ id r ≠ i)
  ∧ rows (db (delete_student i t)) `sublist_of` rows t
  ∧ seq (db (delete_student i t)) = seq t.
Proof.
  intros _.
  assert (Hgone : i ∉ id <$> rows (db (delete_student i t))).
  { simpl. intros Hin. apply list_elem_of_fmap in Hin as (r & -> & Hr).
    by apply list_elem_of_filter in Hr as [? _]. }
  split; [done|]. split; [done|]. split.
  { apply select_by_id_None in Hgone. unfold edit_student.
    cbn [method]. by rewrite Hgone. }
  split. { intros r. simpl. rewrite list_elem_of_filter. tauto. }
  split; [apply sublist_filter|done].
Qed.

Lemma delete_student_then_get_witness :
  route_id 1
  ∧ rows (db (delete_student 1 one_student)) = []
  ∧ edit_student 1 (mk_request GET ∅) (db (delete_student 1 one_student))
    = mk_outcome (RenderEdit None) [] (mk_table [] 1).
Proof.
  assert (H : route_id 1) by (unfold route_id, int64; lia).
  split; [exact H|]. split; [reflexivity|].
  exact (proj1 (proj2 (proj2 (delete_student_then_get 1 one_student ∅ H)))).
Defined.

(** *** What the schema promises is kept *)

Lemma next_rowid_well_formed (t : table) :
  well_formed t → next_rowid t = seq t + 1.
Proof.
  intros (_ & _ & Hpos & Hseq). unfold next_rowid.
  assert (max_id (id <$> rows t) ≤ seq t).
  { apply max_id_le; [done|]. intros j Hj.
    apply list_elem_of_fmap in Hj as (r & -> & Hr). by apply Hseq. }
  lia.
Qed.

Lemma insert_student_well_formed (n e c : string) (t t' : table) :
  well_formed t → insert_student n e c t = Some t' → well_formed t'.
Proof.
  intros Hwf Hins. pose proof (next_rowid_well_formed t Hwf) as Hnext.
  destruct Hwf as (Hids & Hemails & Hpos & Hseq).
  unfold insert_student in Hins. case_decide as He; [done|].
  injection Hins as <-. unfold well_formed. simpl.
  rewrite !fmap_app, Hnext. simpl. split_all.
  - apply NoDup_app. split; [done|]. split; [|apply NoDup_singleton].
    intros j Hj Hj'. apply list_elem_of_singleton in Hj' as ->.
    apply list_elem_of_fmap in Hj as (r & Hr & Hin).
    specialize (Hseq r Hin). lia.
  - apply NoDup_app. split; [done|]. split; [|apply NoDup_singleton].
    intros e' He' Heq. by apply list_elem_of_singleton in Heq as ->.
  - lia.
  - intros r Hr. apply elem_of_app in Hr as [Hr|Hr].
    + specialize (Hseq r Hr). lia.
    + apply list_elem_of_singleton in Hr as ->. simpl. lia.
Qed.

Lemma update_student_well_formed (i : Z) (n e c : string) (t t' : table) :
  well_formed t → update_student i n e c t = Some t' → well_formed t'.
Proof.
  intros (Hids & Hemails & Hpos & Hseq) Hupd. unfold update_student in Hupd.
  destruct (decide (i ∈ id <$> rows t)) as [Hi|Hi]; [|by injection Hupd as <-].
  case_decide as He; [done|]. injection Hupd as <-.
  apply list_elem_of_fmap in Hi as (old & -> & Hold).
  destruct (keyed_split id (rows t) old Hids Hold) as (l1 & l2 & Hrows & Hothers).
  unfold well_formed. simpl. rewrite Hrows in *.
  rewrite (replace_keyed id l1 l2 old _ (id old) eq_refl Hothers).
  rewrite (others_keyed id l1 l2 old (id old) eq_refl Hothers) in He.
  split_all.
  - rewrite fmap_app, fmap_cons in Hids |- *. exact Hids.
  - rewrite fmap_app, fmap_cons in Hemails |- *. simpl.
    apply (NoDup_replace_middle _ _ (email old)); [done|].
    by rewrite <- fmap_app.
  - done.
  - intros r Hr. apply elem_of_app in Hr as [Hr|Hr].
    + apply Hseq, elem_of_app. by left.
    + apply elem_of_cons in Hr as [->|Hr].
      * simpl. apply Hseq, elem_of_app. right. left.
      * apply Hseq, elem_of_app. right. by right.
Qed.

Lemma delete_row_well_formed (i : Z) (t : table) :
  well_formed t → well_formed (delete_row i t).
Proof.
  intros (Hids & Hemails & Hpos & Hseq). unfold well_formed. simpl. split_all.
  - by apply NoDup_fmap_filter.
  - by apply NoDup_fmap_filter.
  - done.
  - intros r Hr. apply list_elem_of_filter in Hr as [_ Hr]. by apply Hseq.
Qed.

(** X5: the empty table is well formed, and every request to the add,
    edit and delete routes takes a well-formed table to a well-formed
    one: ids and emails stay unique and no id exceeds the id counter. *)
Theorem well_formed_kept (t : table) (req : request) (i : Z) :
  well_formed t →
  well_formed empty_table
  ∧ well_formed (db (add_student req t))
  ∧ well_formed (db (edit_student i req t))
  ∧ well_formed (db (delete_student i t)).
Proof.
  intros Hwf. split_all.
  - unfold well_formed, empty_table. simpl.
    split_all; [constructor | constructor | done |].
    intros r Hr. by apply elem_of_nil in Hr.
  - unfold add_student.
    destruct (method req); [done|].
    destruct (form req !! "name") as [n|]; [|done].
    destruct (form req !! "email") as [e|]; [|done].
    destruct (form req !! "course") as [c|]; [|done].
    destruct (select_by_email e t); [done|].
    destruct (insert_student n e c t) as [t'|] eqn:Hins; [|done].
    by apply (insert_student_well_formed n e c t).
  - unfold edit_student.
    destruct (method req); [done|].
    destruct (form req !! "name") as [n|]; [|done].
    destruct (form req !! "email") as [e|]; [|done].
    destruct (form req !! "course") as [c|]; [|done].
    destruct (update_student i n e c t) as [t'|] eqn:Hupd; [|done].
    by apply (update_student_well_formed i n e c t).
  - by apply delete_row_well_formed.
Qed.

Lemma one_student_well_formed : well_formed one_student.
Proof.
  unfold well_formed, one_student. simpl. split_all.
  - apply NoDup_singleton.
  - apply NoDup_singleton.
  - lia.
  - intros r Hr. apply list_elem_of_singleton in Hr as ->. simpl. lia.
Defined.

Lemma well_formed_kept_witness :
  well_formed one_student
  ∧ well_formed
      (db (add_student
             (mk_request POST (student_form "Bob" "bob@example.com" "Sets"))
             one_student))
  ∧ well_formed (db (delete_student 1 one_student)).
Proof.
  split; [exact one_student_well_formed|].
  split;
    apply (well_formed_kept one_student
             (mk_request POST (student_form "Bob" "bob@example.com" "Sets")) 1
             one_student_well_formed).
Defined.

(** X6: ids are not handed out twice.  On a well-formed table, a student
    added after a delete gets the id one above the id counter, which is
    larger than every id the table held before the delete, the deleted
    one included. *)
Theorem deleted_id_not_reused (i : Z) (t : table) (f : gmap string string)
        (n e c : string) :
  well_formed t →
  f !! "name" = Some n → f !! "email" = Some e → f !! "course" = Some c →
  e ∉ email <$> rows (db (delete_student i t)) →
  rows (db (add_student (mk_request POST f) (db (delete_student i t))))
  = filter (λ r, id r ≠ i) (rows t) ++ [mk_student (seq t + 1) n e c]
  ∧ (∀ r, r ∈ rows t → id r < seq t + 1).
Proof.
  intros Hwf Hn He Hc Hfresh.
  change (db (delete_student i t)) with (delete_row i t) in *.
  pose proof (delete_row_well_formed i t Hwf) as Hwf'.
  pose proof (next_rowid_well_formed _ Hwf') as Hnext.
  destruct Hwf as (_ & _ & _ & Hseq).
  unfold add_student. cbn [method form]. rewrite Hn, He, Hc.
  rewrite (proj2 (select_by_email_None e _) Hfresh).
  unfold insert_student. rewrite decide_False by done. cbn [db rows].
  rewrite Hnext. simpl. split; [done|].
  intros r Hr. specialize (Hseq r Hr). lia.
Qed.

Lemma deleted_id_not_reused_witness :
  rows (db (add_student
              (mk_request POST (student_form "Bob" "bob@example.com" "Sets"))
              (db (delete_student 1 one_student))))
  = [mk_student 2 "Bob" "bob@example.com" "Sets"].
Proof.
  apply (deleted_id_not_reused 1 one_student
           (student_form "Bob" "bob@example.com" "Sets")
           "Bob" "bob@example.com" "Sets" one_student_well_formed);
    [reflexivity | reflexivity | reflexivity |].
  apply (bool_decide_unpack _). vm_compute. exact I.
Defined.

(** *** What the add route never does *)

(** X7: the add route never fails on the unique constraint: it answers
    with the form, a 400, or a redirect, never with a server error.  A
    GET renders the form and a POST that lacks one of the three fields is
    a bad request; both flash nothing.  Whenever the answer is not the
    redirect to the index, the table is as it was. *)
Theorem add_student_guarded (req : request) (t : table) :
  resp (add_student req t) ≠ ServerError
  ∧ (resp (add_student req t) ≠ Redirect "index" → db (add_student req t) = t)
  ∧ (method req = GET → add_student req t = mk_outcome RenderAdd [] t)
  ∧ (method req = POST →
     form req !! "name" = None ∨ form req !! "email" = None
     ∨ form req !! "course" = None →
     add_student req t = mk_outcome BadRequest [] t).
Proof.
  unfold add_student. destruct (method req).
  { split_all; done. }
  destruct (form req !! "name") as [n|];
    [|split_all; done].
  destruct (form req !! "email") as [e|];
    [|split_all; done].
  destruct (form req !! "course") as [c|];
    [|split_all; done].
  destruct (select_by_email e t) eqn:Hsel.
  { split_all; try done. intros _ [?|[?|?]]; done. }
  unfold insert_student.
  rewrite decide_False by by apply select_by_email_None.
  split_all; try done. intros _ [?|[?|?]]; done.
Qed.

End Part2Facts.

(** ** Theorems: part 4 *)

Module Part4Facts.
Import Part4.

(** *** Primary-key lookups *)

Lemma session_get_book_None (i : Z) (db : database) :
  session_get_book i db = None ↔ i ∉ Book.id <$> books db.
Proof.
  unfold session_get_book. rewrite first_match_None, list_elem_of_fmap.
  split.
  - intros Hno (b & -> & Hb). by apply (Hno b).
  - intros Hno b Hb He. apply Hno. by exists b.
Qed.

Lemma session_get_author_None (i : Z) (db : database) :
  session_get_author i db = None ↔ i ∉ Author.id <$> authors db.
Proof.
  unfold session_get_author. rewrite first_match_None, list_elem_of_fmap.
  split.
  - intros Hno (a & -> & Ha). by apply (Hno a).
  - intros Hno a Ha He. apply Hno. by exists a.
Qed.

Lemma session_get_book_Some (i : Z) (db : database) (b : Book.t) :
  session_get_book i db = Some b → b ∈ books db ∧ Book.id b = i.
Proof. apply (first_match_Some (λ b, Book.id b = i)). Qed.

Lemma session_get_author_Some (i : Z) (db : database) (a : Author.t) :
  session_get_author i db = Some a → a ∈ authors db ∧ Author.id a = i.
Proof. apply (first_match_Some (λ a, Author.id a = i)). Qed.

Lemma session_get_author_is_Some (i : Z) (db : database) :
  is_Some (session_get_author i db) ↔ i ∈ Author.id <$> authors db.
Proof.
  destruct (session_get_author i db) eqn:Hg.
  - split; [intros _|by eauto].
    apply session_get_author_Some in Hg as [Ha <-].
    by apply list_elem_of_fmap_2.
  - split; [by intros [? ?]|].
    intros Hin. by apply session_get_author_None in Hg.
Qed.

(** *** Deleting an author *)

(** C5: deleting an existing author succeeds; afterwards no book that
    referenced the author remains, the books of every other author are
    all still there, unchanged and in their order, no book was added,
    and the author itself is gone. *)
Theorem delete_author_cascades (i : Z) (db : database) :
  i ∈ Author.id <$> authors db →
  status (delete_author i db).1 = 200
  ∧ (∀ b, b ∈ books (delete_author i db).2 → Book.author_id b ≠ i)
  ∧ (∀ b, b ∈ books db → Book.author_id b ≠ i →
          b ∈ books (delete_author i db).2)
  ∧ books (delete_author i db).2
    = filter (λ b, Book.author_id b ≠ i) (books db)
  ∧ books (delete_author i db).2 `sublist_of` books db
  ∧ i ∉ Author.id <$> authors (delete_author i db).2.
Proof.
  intros Hin. apply session_get_author_is_Some in Hin as [a Ha].
  unfold delete_author. rewrite Ha. simpl.
  split; [done|]. split.
  { intros b Hb. by apply list_elem_of_filter in Hb as [? _]. }
  split.
  { intros b Hb Hne. by apply list_elem_of_filter. }
  split; [done|]. split; [apply sublist_filter|].
  intros Hi. apply list_elem_of_fmap in Hi as (a' & -> & Ha').
  by apply list_elem_of_filter in Ha' as [? _].
Qed.

Lemma seeded_has_author_2 : 2 ∈ Author.id <$> authors seeded.
Proof. apply (bool_decide_unpack _). vm_compute. exact I. Defined.

Lemma delete_author_cascades_witness :
  2 ∈ Author.id <$> authors seeded
  ∧ books (delete_author 2 seeded).2
    = filter (λ b, Book.author_id b ≠ 2) (books seeded)
  ∧ 2 ∉ Author.id <$> authors (delete_author 2 seeded).2.
Proof.
  split; [exact seeded_has_author_2|].
  split; apply (delete_author_cascades 2 seeded seeded_has_author_2).
Defined.

Example delete_author_2_books :
  Book.id <$> books (delete_author 2 seeded).2 = [1; 3].
Proof. reflexivity. Qed.

(** *** Search *)

Example search_by_year_filters :
  listed_ids (search_books {[ "year" := "2008" ]} seeded) = [3]
  ∧ listed_ids (search_books {[ "year" := "0" ]} seeded) = [1; 2; 3]
  ∧ listed_ids (search_books {[ "year" := "" ]} seeded) = [1; 2; 3].
Proof. done. Qed.

(** The year filter after the author filter: [filter_by] looks [year]
    up on [Author] and the request fails. *)
Example search_author_and_year :
  search_books {[ "author" := "eric"; "year" := "2019" ]} seeded
  = internal_error.
Proof. reflexivity. Qed.

(** *** Serialization succeeds on a database with referential integrity *)

Lemma book_to_dict_Some (db : database) (b : Book.t) :
  Book.author_id b ∈ Author.id <$> authors db →
  ∃ d, book_to_dict db b = Some d ∧ d_id d = Book.id b.
Proof.
  intros Hin. apply session_get_author_is_Some in Hin as [a Ha].
  unfold book_to_dict. rewrite Ha. simpl. eauto.
Qed.

Lemma books_to_dicts_Some (db : database) (l : list Book.t) :
  (∀ b, b ∈ l → Book.author_id b ∈ Author.id <$> authors db) →
  ∃ ds, books_to_dicts db l = Some ds ∧ d_id <$> ds = Book.id <$> l.
Proof.
  unfold books_to_dicts. induction l as [|b l IH]; intros Hl.
  - by exists [].
  - destruct (book_to_dict_Some db b) as (d & Hd & Hid).
    { apply Hl. left. }
    destruct IH as (ds & Hds & Hids).
    { intros b' Hb'. apply Hl. by right. }
    exists (d :: ds). split.
    + simpl. rewrite Hd. simpl. by rewrite Hds.
    + rewrite !fmap_cons. by rewrite Hid, Hids.
Qed.

(** *** Ordering by id *)

Lemma column_le_id (d : bool) (x y : Book.t) :
  column_le Book_id d x y
  ↔ if d then Book.id y ≤ Book.id x else Book.id x ≤ Book.id y.
Proof.
  unfold column_le. destruct d; simpl; rewrite Is_true_true; apply Z.leb_le.
Qed.

#[local] Instance column_le_id_total (d : bool) : Total (column_le Book_id d).
Proof. intros x y. rewrite !column_le_id. destruct d; lia. Qed.

#[local] Instance column_le_id_trans (d : bool) : Transitive (column_le Book_id d).
Proof. intros x y z. rewrite !column_le_id. destruct d; lia. Qed.

Lemma order_by_Permutation (c : column) (d : bool) (l : list Book.t) :
  order_by c d l ≡ₚ l.
Proof. apply merge_sort_Permutation. Qed.

Lemma order_by_id_ascending (l : list Book.t) :
  StronglySorted Z.le (Book.id <$> order_by Book_id false l).
Proof.
  apply (StronglySorted_fmap Book.id (column_le Book_id false)).
  - intros x y. by rewrite column_le_id.
  - apply (StronglySorted_merge_sort (column_le Book_id false)).
Qed.

Lemma order_by_id_descending (l : list Book.t) :
  StronglySorted Z.ge (Book.id <$> order_by Book_id true l).
Proof.
  apply (StronglySorted_fmap Book.id (column_le Book_id true)).
  - intros x y. rewrite column_le_id. lia.
  - apply (StronglySorted_merge_sort (column_le Book_id true)).
Qed.

(** *** Pagination *)


Lemma paginate_items_subseteq (query : list Book.t) (page per_page : Z) :
  items (paginate query page per_page) ⊆ query.
Proof.
  unfold paginate. simpl. etrans; [apply subseteq_take|apply subseteq_drop].
Qed.



Lemma seeded_integrity : referential_integrity seeded.
Proof.
  intros b Hb. apply (bool_decide_unpack _).
  revert b Hb. apply Forall_forall. apply (bool_decide_unpack _).
  vm_compute. exact I.
Defined.


Example paginated_200 :
  get_books_paginated {[ "per_page" := "200" ]} seeded
  = get_books_paginated {[ "per_page" := "100" ]} seeded
  ∧ listed_ids (get_books_paginated {[ "per_page" := "200" ]} seeded)
    = [1; 2; 3]
  ∧ listed_ids (get_books_paginated
                  {[ "per_page" := "2"; "page" := "2" ]} seeded) = [3].
Proof. done. Qed.

(** *** Sorting *)

Lemma allowed_sorts_unlisted (f : string) :
  f ∉ sortable_fields → allowed_sorts !! f = None.
Proof. intros Hf. by apply not_elem_of_list_to_map_1. Qed.

(** C2, as stated, fails: with an unrecognized sort field and
    [order=desc] the books come back in descending id order. *)
Lemma sorted_fallback_descending :
  ("rating" ∉ sortable_fields)
  ∧ listed_ids (get_books_sorted
                  {[ "sort" := "rating"; "order" := "desc" ]} seeded)
    = [3; 2; 1]
  ∧ ¬ StronglySorted Z.le
        (listed_ids (get_books_sorted
                       {[ "sort" := "rating"; "order" := "desc" ]} seeded)).
Proof.
  split.
  { apply (bool_decide_unpack _). vm_compute. exact I. }
  split; [reflexivity|].
  change (listed_ids _) with [3; 2; 1].
  intros Hs. apply StronglySorted_inv in Hs as [_ Hall].
  apply Forall_cons in Hall as [Hle _]. lia.
Qed.

(** C2, amended: with a sort field outside the whitelist the listing
    holds every book once and is ordered by id, in the direction that
    [order] asks for: descending when [order], lower-cased, is [desc],
    ascending for every other value and when [order] is absent. *)
Theorem sorted_fallback (args : gmap string string) (db : database)
        (f : string) :
  referential_integrity db →
  args !! "sort" = Some f →
  f ∉ sortable_fields →
  ∃ ds,
    get_books_sorted args db
    = mk_response 200
        (BookSorted f (default "asc" (args !! "order"))
                    (length (books db)) ds)
    ∧ d_id <$> ds ≡ₚ Book.id <$> books db
    ∧ (lower (default "asc" (args !! "order")) ≠ "desc" →
       StronglySorted Z.le (d_id <$> ds))
    ∧ (lower (default "asc" (args !! "order")) = "desc" →
       StronglySorted Z.ge (d_id <$> ds)).
Proof.
  intros Hfk Hsort Hf. unfold get_books_sorted. rewrite Hsort. simpl.
  rewrite (allowed_sorts_unlisted f Hf). simpl.
  set (order := default "asc" (args !! "order")).
  set (d := bool_decide (lower order = "desc")).
  assert (Hq : (if decide (lower order = "desc")
                then order_by Book_id true (books db)
                else order_by Book_id false (books db))
               = order_by Book_id d (books db)).
  { subst d. by case_decide; [rewrite bool_decide_true|rewrite bool_decide_false]. }
  rewrite Hq.
  assert (Hperm : order_by Book_id d (books db) ≡ₚ books db)
    by apply order_by_Permutation.
  destruct (books_to_dicts_Some db (order_by Book_id d (books db)))
    as (ds & Hds & Hids).
  { intros b Hb. apply Hfk. by rewrite <- Hperm. }
  rewrite Hds. exists ds.
  split. { by rewrite Hperm. }
  split. { by rewrite Hids, Hperm. }
  rewrite Hids. subst d. split; intros Hord.
  - rewrite bool_decide_false by done. apply order_by_id_ascending.
  - rewrite bool_decide_true by done. apply order_by_id_descending.
Qed.

Lemma sorted_fallback_witness :
  ∃ ds,
    get_books_sorted {[ "sort" := "rating"; "order" := "DESC" ]} seeded
    = mk_response 200 (BookSorted "rating" "DESC" 3 ds)
    ∧ StronglySorted Z.ge (d_id <$> ds).
Proof.
  destruct (sorted_fallback {[ "sort" := "rating"; "order" := "DESC" ]}
              seeded "rating" seeded_integrity)
    as (ds & Hr & _ & _ & Hdesc).
  { reflexivity. }
  { apply (bool_decide_unpack _). vm_compute. exact I. }
  exists ds. split; [exact Hr | apply Hdesc; reflexivity].
Defined.

(** *** Updating a book *)




(** The attributes of the row after the assignments of [update_book]. *)
Lemma assigned_fields (data : book_json) (old : Book.t) :
  let new := assign (j_isbn data) set_isbn
               (assign (j_year data) set_year
                  (assign (j_author_id data) set_author_id
                     (assign (j_title data) set_title old))) in
  Book.id new = Book.id old
  ∧ Book.created_at new = Book.created_at old
  ∧ Book.title new = default (Book.title old) (j_title data)
  ∧ Book.year new = default (Book.year old) (j_year data)
  ∧ Book.isbn new = default (Book.isbn old) (j_isbn data)
  ∧ Book.author_id new = default (Book.author_id old) (j_author_id data).
Proof.
  destruct data as [[?|] [?|] [?|] [?|] ?]; simpl; done.
Qed.

(** The three ways [update_book] ends for an existing book and a
    non-empty body. *)
Lemma update_book_cases (i : Z) (data : book_json) (db : database) (old : Book.t) :
  session_get_book i db = Some old →
  book_json_empty data = false →
  (∃ v, j_author_id data = Some v ∧ (v ∉ Author.id <$> authors db)
        ∧ update_book i data db = (error 404 "Author not found", db))
  ∨ ((∀ v, j_author_id data = Some v → v ∈ Author.id <$> authors db)
     ∧ (update_book i data db = (internal_error, db)
        ∨ ∃ r db',
            update_book i data db = (r, db')
            ∧ commit_book i
                (assign (j_isbn data) set_isbn
                   (assign (j_year data) set_year
                      (assign (j_author_id data) set_author_id
                         (assign (j_title data) set_title old)))) db
              = Some db')).
Proof.
  intros Hold Hne. unfold update_book. rewrite Hold, Hne.
  destruct (j_author_id data) as [v|] eqn:Hv.
  - destruct (session_get_author v db) as [a|] eqn:Hg.
    + right. split.
      { intros ? [= <-]. apply session_get_author_is_Some. by rewrite Hg. }
      rewrite bool_decide_true by done. simpl.
      match goal with
      | |- context [commit_book i ?b db] =>
          destruct (commit_book i b db) as [db'|] eqn:Hc
      end; [right|by left].
      destruct (book_to_dict db' _); eauto.
    + left. exists v. split; [done|].
      split; [by apply session_get_author_None|].
      by rewrite bool_decide_false by (by intros [? ?]).
  - right. split; [done|].
    match goal with
    | |- context [commit_book i ?b db] =>
        destruct (commit_book i b db) as [db'|] eqn:Hc
    end; [right|by left].
    destruct (book_to_dict db' _); eauto.
Qed.



(** *** Creating a book *)

Lemma next_book_id_fresh (db : database) (b : Book.t) :
  b ∈ books db → Book.id b ≠ next_book_id db.
Proof.
  intros Hb. unfold next_book_id.
  assert (Book.id b ≤ max_id (Book.id <$> books db)).
  { apply max_id_ge. by apply list_elem_of_fmap_2. }
  lia.
Qed.

Lemma next_author_id_fresh (db : database) (a : Author.t) :
  a ∈ authors db → Author.id a ≠ next_author_id db.
Proof.
  intros Ha. unfold next_author_id.
  assert (Author.id a ≤ max_id (Author.id <$> authors db)).
  { apply max_id_ge. by apply list_elem_of_fmap_2. }
  lia.
Qed.

Lemma first_book_by_isbn_is_Some (v : string) (db : database) :
  is_Some (first_book_by_isbn v db) ↔ Some v ∈ Book.isbn <$> books db.
Proof.
  unfold first_book_by_isbn. rewrite first_match_is_Some, list_elem_of_fmap.
  split.
  - intros (b & Hb & Hv). by exists b.
  - intros (b & Hv & Hb). by exists b.
Qed.

Lemma isbn_free_new (v : option string) (db : database) :
  isbn_free (next_book_id db) v db = true
  ↔ ∀ s, v = Some s → Some s ∉ Book.isbn <$> books db.
Proof.
  unfold isbn_free. destruct v as [s|]; [|by split].
  rewrite (filter_all (λ b, Book.id b ≠ next_book_id db))
    by apply next_book_id_fresh.
  rewrite bool_decide_eq_true. split.
  - by intros Hs ? [= <-].
  - intros Hs. by apply Hs.
Qed.

Lemma book_json_nonempty_of_title (data : book_json) (t : string) :
  j_title data = Some t → book_json_empty data = false.
Proof. intros Ht. unfold book_json_empty. by rewrite Ht. Qed.

(** Every way [create_book] ends. *)
Lemma create_book_cases (now : Z) (data : book_json) (db : database) :
  ((truthy_str (j_title data) = false ∨ truthy_int (j_author_id data) = false)
   ∧ status (create_book now data db).1 = 400
   ∧ (create_book now data db).2 = db)
  ∨ ∃ t a,
      j_title data = Some t ∧ nonempty t = true
      ∧ j_author_id data = Some a ∧ a ≠ 0
      ∧ ((session_get_author a db = None
          ∧ create_book now data db = (error 404 "Author not found", db))
         ∨ ∃ author,
             session_get_author a db = Some author
             ∧ ((∃ s, mjoin (j_isbn data) = Some s ∧ nonempty s = true
                      ∧ Some s ∈ Book.isbn <$> books db
                      ∧ create_book now data db
                        = (error 400 "ISBN already exists", db))
                ∨ (∃ s, mjoin (j_isbn data) = Some s ∧ nonempty s = false
                        ∧ Some s ∈ Book.isbn <$> books db
                        ∧ create_book now data db = (internal_error, db))
                ∨ ((∀ s, mjoin (j_isbn data) = Some s →
                         Some s ∉ Book.isbn <$> books db)
                   ∧ create_book now data db
                     = (mk_response 201
                          (BookResult (Some "Book created successfully")
                             (created_book_dict now data db t author)),
                        {| authors := authors db;
                           books := books db
                                    ++ [created_book now data db t a] |})))).
Proof.
  unfold create_book.
  destruct (book_json_empty data) eqn:Hempty.
  { left. split; [|done]. left.
    destruct (j_title data) eqn:Ht; [|done].
    by rewrite (book_json_nonempty_of_title data _ Ht) in Hempty. }
  destruct (truthy_str (j_title data)) eqn:Htitle; [|left; auto].
  destruct (truthy_int (j_author_id data)) eqn:Hauthor; [|left; auto].
  simpl. right.
  destruct (j_title data) as [t|] eqn:Ht; [|done].
  destruct (j_author_id data) as [a|] eqn:Ha; [|done].
  simpl in Htitle, Hauthor. exists t, a.
  split; [done|]. split; [done|]. split; [done|].
  split. { apply negb_true_iff, Z.eqb_neq in Hauthor. done. }
  unfold subscript.
  destruct (session_get_author a db) as [author|] eqn:Hg; [right|by left].
  exists author. split; [done|].
  assert (Hdict : ∀ db', authors db' = authors db →
            book_to_dict db' (created_book now data db t a)
            = Some (created_book_dict now data db t author)).
  { intros db' Hdb'. unfold book_to_dict, session_get_author. rewrite Hdb'.
    unfold session_get_author in Hg. simpl. rewrite Hg. simpl.
    apply session_get_author_Some in Hg as [_ <-]. done. }
  fold (created_book now data db t a).
  unfold commit_new_book. simpl.
  destruct (isbn_free (next_book_id db) (mjoin (j_isbn data)) db) eqn:Hfree.
  - (* the unique constraint holds: the check passes too *)
    pose proof (proj1 (isbn_free_new _ _) Hfree) as Hnot.
    right. right. split; [done|].
    assert (Hcheck :
      truthy_str (mjoin (j_isbn data))
      && bool_decide (is_Some (mjoin (j_isbn data)
                               ≫= λ v, first_book_by_isbn v db)) = false).
    { destruct (mjoin (j_isbn data)) as [s|]; [|done]. simpl.
      apply andb_false_iff. right. apply bool_decide_eq_false.
      rewrite first_book_by_isbn_is_Some. by apply Hnot. }
    rewrite Hcheck. by rewrite Hdict.
  - (* the isbn is taken *)
    destruct (mjoin (j_isbn data)) as [s|] eqn:Hs; [|done].
    assert (Htaken : Some s ∈ Book.isbn <$> books db).
    { destruct (decide (Some s ∈ Book.isbn <$> books db)) as [|Hn]; [done|].
      assert (isbn_free (next_book_id db) (Some s) db = true) as Hf.
      { apply isbn_free_new. by intros ? [= <-]. }
      congruence. }
    simpl. rewrite (bool_decide_true (is_Some (first_book_by_isbn s db)))
      by by apply first_book_by_isbn_is_Some.
    destruct (nonempty s) eqn:Hn; simpl.
    + left. exists s. done.
    + right. left. exists s. done.
Qed.


(** A title that is present but empty counts as missing. *)
Example create_book_empty_title :
  create_book 7 (mk_book_json (Some EmptyString) (Some 1) None None false) seeded
  = (error 400 "Title and author_id are required", seeded).
Proof. reflexivity. Qed.



(** *** Create, then read back *)

Lemma get_created_book (now : Z) (data : book_json) (db : database)
      (t : string) (a : Z) (author : Author.t) :
  session_get_author a db = Some author →
  get_book (next_book_id db)
           {| authors := authors db;
              books := books db ++ [created_book now data db t a] |}
  = mk_response 200 (BookResult None (created_book_dict now data db t author)).
Proof.
  intros Hg. unfold get_book, session_get_book. simpl.
  rewrite (first_match_snoc_fresh (λ b, Book.id b = next_book_id db));
    [|apply next_book_id_fresh|done].
  unfold book_to_dict, session_get_author. simpl.
  unfold session_get_author in Hg. rewrite Hg. simpl.
  apply (first_match_Some (λ r, Author.id r = a)) in Hg as [_ <-]. done.
Qed.

Lemma author_to_dict_fields (db : database) (a : Author.t) (d : author_dict) :
  author_to_dict db true a = Some d →
  a_id d = Author.id a ∧ a_name d = Author.name a ∧ a_city d = Author.city a.
Proof.
  unfold author_to_dict.
  destruct (books_to_dicts db _); simpl; [|done]. by intros [= <-].
Qed.

Lemma create_author_created (data : author_json) (db : database) :
  status (create_author data db).1 = 201 →
  ∃ n c d,
    j_name data = Some n ∧ j_city data = Some c
    ∧ create_author data db
      = (mk_response 201 (AuthorResult (Some "Author created successfully") d),
         {| authors := authors db ++ [Author.mk (next_author_id db) n c];
            books := books db |})
    ∧ author_to_dict
        {| authors := authors db ++ [Author.mk (next_author_id db) n c];
           books := books db |}
        true (Author.mk (next_author_id db) n c) = Some d.
Proof.
  unfold create_author.
  destruct (author_json_empty data); [done|].
  destruct (negb (truthy_str (j_name data)) || negb (truthy_str (j_city data)));
    [done|].
  destruct (j_name data) as [n|]; [|done]. cbn -[author_to_dict].
  destruct (first_author_by_name n db); [done|].
  destruct (j_city data) as [c|]; [|done]. cbn -[author_to_dict].
  unfold commit_new_author. cbn -[author_to_dict].
  destruct (name_free (next_author_id db) n db); [|done].
  match goal with
  | |- context [author_to_dict ?db' true ?new] =>
      destruct (author_to_dict db' true new) as [d|] eqn:Hd; [|done]
  end.
  intros _. by exists n, c, d.
Qed.

(** C6: when [POST /api/books] answers 201, the document it returns
    carries the submitted title, year, isbn and author id and the
    creation time, and a [GET] of the id in that document, on the
    database the request left, answers 200 with the same document; and
    likewise for [POST /api/authors] and [GET /api/authors/<id>] with the
    submitted name and city. *)
Theorem create_then_get (now : Z) (bdata : book_json) (adata : author_json)
        (db : database) :
  (status (create_book now bdata db).1 = 201 →
     ∃ d,
       payload (create_book now bdata db).1
       = BookResult (Some "Book created successfully") d
       ∧ get_book (d_id d) (create_book now bdata db).2
         = mk_response 200 (BookResult None d)
       ∧ j_title bdata = Some (d_title d)
       ∧ j_author_id bdata = Some (d_author d).1
       ∧ d_year d = mjoin (j_year bdata)
       ∧ d_isbn d = mjoin (j_isbn bdata)
       ∧ d_created_at d = Some now)
  ∧ (status (create_author adata db).1 = 201 →
     ∃ d,
       payload (create_author adata db).1
       = AuthorResult (Some "Author created successfully") d
       ∧ get_author (a_id d) (create_author adata db).2
         = mk_response 200 (AuthorResult None d)
       ∧ j_name adata = Some (a_name d)
       ∧ j_city adata = Some (a_city d)).
Proof.
  split.
  - intros H201.
    destruct (create_book_cases now bdata db)
      as [(_ & H400 & _) | (t & a & Ht & _ & Ha & _ & Hcases)]; [congruence|].
    destruct Hcases as [[_ Hr] | (author & Hg & Hcases)];
      [by rewrite Hr in H201|].
    destruct Hcases as [(s & _ & _ & _ & Hr)
                       | [(s & _ & _ & _ & Hr) | [_ Hr]]];
      [by rewrite Hr in H201 | by rewrite Hr in H201 |].
    rewrite Hr. simpl. eexists. split; [done|].
    split; [by apply get_created_book|]. simpl.
    apply session_get_author_Some in Hg as [_ ->]. by rewrite Ht, Ha.
  - intros H201.
    destruct (create_author_created adata db H201)
      as (n & c & d & Hn & Hc & Hr & Hd).
    rewrite Hr. simpl. exists d. split; [done|].
    destruct (author_to_dict_fields _ _ _ Hd) as (Hid & Hname & Hcity).
    simpl in Hid, Hname, Hcity. rewrite Hid, Hname, Hcity, Hn, Hc.
    split; [|done].
    unfold get_author, session_get_author. cbn -[author_to_dict].
    rewrite (first_match_snoc_fresh (λ r, Author.id r = next_author_id db));
      [|apply next_author_id_fresh|done].
    by rewrite Hd.
Qed.

Lemma create_then_get_witness :
  (∃ d,
     payload (create_book 7 (mk_book_json (Some "Fluent Python") (Some 1)
                               (Some (Some 2015)) None false) seeded).1
     = BookResult (Some "Book created successfully") d
     ∧ get_book (d_id d)
                (create_book 7 (mk_book_json (Some "Fluent Python") (Some 1)
                                  (Some (Some 2015)) None false) seeded).2
       = mk_response 200 (BookResult None d))
  ∧ (∃ d,
       payload (create_author (mk_author_json (Some "Luciano Ramalho")
                                 (Some "Sao Paulo") false) seeded).1
       = AuthorResult (Some "Author created successfully") d
       ∧ get_author (a_id d)
                    (create_author (mk_author_json (Some "Luciano Ramalho")
                                      (Some "Sao Paulo") false) seeded).2
         = mk_response 200 (AuthorResult None d)).
Proof.
  destruct (create_then_get 7
              (mk_book_json (Some "Fluent Python") (Some 1)
                            (Some (Some 2015)) None false)
              (mk_author_json (Some "Luciano Ramalho") (Some "Sao Paulo") false)
              seeded) as [Hbook Hauthor].
  split.
  - destruct (Hbook eq_refl) as (d & Hp & Hget & _). by exists d.
  - destruct (Hauthor eq_refl) as (d & Hp & Hget & _). by exists d.
Defined.

Example create_then_get_book :
  get_book 4 (create_book 7 (mk_book_json (Some "Fluent Python") (Some 1)
                               (Some (Some 2015)) None false) seeded).2
  = mk_response 200
      (BookResult None
         (mk_book_dict 4 "Fluent Python" (Some 2015) None (1, "Eric Matthes")
                       (Some 7))).
Proof. reflexivity. Qed.

(** *** Referential integrity is kept by every route

    The seeded database has it, and no request loses it, so it holds in
    every database the API can reach. *)

Lemma create_book_integrity (now : Z) (data : book_json) (db : database) :
  referential_integrity db →
  referential_integrity (create_book now data db).2.
Proof.
  intros Hfk.
  destruct (create_book_cases now data db)
    as [(_ & _ & ->) | (t & a & _ & _ & _ & _ & Hcases)]; [done|].
  destruct Hcases as [[_ ->] | (author & Hg & Hcases)]; [done|].
  destruct Hcases as [(s & _ & _ & _ & ->)
                     | [(s & _ & _ & _ & ->) | [_ ->]]]; [done|done|].
  intros b Hb. simpl in *. apply elem_of_app in Hb as [Hb|Hb]; [by apply Hfk|].
  apply list_elem_of_singleton in Hb as ->. simpl.
  apply session_get_author_is_Some. by rewrite Hg.
Qed.

Lemma update_book_integrity (i : Z) (data : book_json) (db : database) :
  referential_integrity db →
  referential_integrity (update_book i data db).2.
Proof.
  intros Hfk.
  destruct (session_get_book i db) as [old|] eqn:Hold.
  2:{ unfold update_book. by rewrite Hold. }
  destruct (book_json_empty data) eqn:Hempty.
  { unfold update_book. by rewrite Hold, Hempty. }
  destruct (update_book_cases i data db old Hold Hempty)
    as [(v & _ & _ & ->) | (Hexists & [-> | (r & db' & -> & Hcommit)])];
    [done|done|].
  unfold commit_book in Hcommit.
  destruct (isbn_free i _ db); [|done]. injection Hcommit as <-.
  destruct (assigned_fields data old) as (_ & _ & _ & _ & _ & Hauthor).
  intros b Hb. simpl in *.
  apply list_elem_of_fmap in Hb as (r0 & -> & Hr0).
  destruct (decide (Book.id r0 = i)); [|by apply Hfk].
  rewrite Hauthor. destruct (j_author_id data) as [v|]; simpl.
  - by apply Hexists.
  - apply Hfk. by apply session_get_book_Some in Hold as [? _].
Qed.

Lemma delete_book_integrity (i : Z) (db : database) :
  referential_integrity db →
  referential_integrity (delete_book i db).2.
Proof.
  intros Hfk. unfold delete_book.
  destruct (session_get_book i db); [|done].
  intros b Hb. simpl in *. apply list_elem_of_filter in Hb as [_ Hb].
  by apply Hfk.
Qed.

Lemma create_author_integrity (data : author_json) (db : database) :
  referential_integrity db →
  referential_integrity (create_author data db).2.
Proof.
  intros Hfk.
  assert (Hgrow : ∀ a, referential_integrity
                         {| authors := authors db ++ [a]; books := books db |}).
  { intros a b Hb. simpl in *. rewrite fmap_app. apply elem_of_app. left.
    by apply Hfk. }
  unfold create_author.
  destruct (author_json_empty data); [done|].
  destruct (negb (truthy_str (j_name data)) || negb (truthy_str (j_city data)));
    [done|].
  destruct (j_name data) as [n|]; [|done]. cbn -[author_to_dict].
  destruct (first_author_by_name n db); [done|].
  destruct (j_city data) as [c|]; [|done]. cbn -[author_to_dict].
  unfold commit_new_author. cbn -[author_to_dict].
  destruct (name_free (next_author_id db) n db); [|done].
  match goal with
  | |- context [author_to_dict ?db' true ?new] =>
      destruct (author_to_dict db' true new)
  end; apply Hgrow.
Qed.

Lemma replace_author_ids (i : Z) (a : Author.t) (l : list Author.t) :
  Author.id a = i →
  Author.id <$> ((λ r, if decide (Author.id r = i) then a else r) <$> l)
  = Author.id <$> l.
Proof.
  intros Hid. induction l as [|r l IH]; [done|].
  rewrite !fmap_cons, IH. f_equal. case_decide; congruence.
Qed.

Lemma update_author_integrity (i : Z) (data : author_json) (db : database) :
  referential_integrity db →
  referential_integrity (update_author i data db).2.
Proof.
  intros Hfk. unfold update_author.
  destruct (session_get_author i db) as [old|] eqn:Hold; [|done].
  destruct (author_json_empty data); [done|].
  apply session_get_author_Some in Hold as [_ Hid].
  match goal with
  | |- context [commit_author i ?a0 db] => set (a := a0)
  end.
  assert (Hida : Author.id a = i)
    by (subst a; destruct (j_name data), (j_city data); exact Hid).
  clearbody a.
  unfold commit_author.
  destruct (name_free i (Author.name a) db); [|done].
  assert (Hkept : referential_integrity
            {| authors := (λ r, if decide (Author.id r = i) then a else r)
                            <$> authors db;
               books := books db |}).
  { intros b Hb. simpl in *. rewrite replace_author_ids by done. by apply Hfk. }
  match goal with
  | |- context [author_to_dict ?db' true a] =>
      destruct (author_to_dict db' true a)
  end; exact Hkept.
Qed.

Lemma delete_author_integrity (i : Z) (db : database) :
  referential_integrity db →
  referential_integrity (delete_author i db).2.
Proof.
  intros Hfk. unfold delete_author.
  destruct (session_get_author i db); [|done].
  intros b Hb. simpl in *. apply list_elem_of_filter in Hb as [Hne Hb].
  specialize (Hfk b Hb). apply list_elem_of_fmap in Hfk as (a & Ha & Hin).
  apply list_elem_of_fmap. exists a. split; [done|].
  apply list_elem_of_filter. split; [congruence|done].
Qed.

(** *** Delete, then read back *)

(** X8: deleting an existing book answers 200, after which a [GET] of
    its id answers 404, every other book is still there and the authors
    are untouched; deleting an existing author likewise makes a [GET] of
    its id answer 404 and keeps every other author. *)
Theorem delete_then_get (i : Z) (db : database) :
  (i ∈ Book.id <$> books db →
     (delete_book i db).1 = mk_response 200 (Done "Book deleted successfully")
     ∧ get_book i (delete_book i db).2 = error 404 "Book not found"
     ∧ (∀ b, b ∈ books (delete_book i db).2 ↔ b ∈ books db ∧ Book.id b ≠ i)
     ∧ authors (delete_book i db).2 = authors db)
  ∧ (i ∈ Author.id <$> authors db →
     (delete_author i db).1
     = mk_response 200 (Done "Author deleted successfully")
     ∧ get_author i (delete_author i db).2 = error 404 "Author not found"
     ∧ (∀ a, a ∈ authors (delete_author i db).2
             ↔ a ∈ authors db ∧ Author.id a ≠ i)).
Proof.
  split.
  - intros Hin. unfold delete_book.
    destruct (session_get_book i db) eqn:Hg;
      [|by apply session_get_book_None in Hg].
    simpl. split; [done|]. split.
    + unfold get_book.
      rewrite (proj2 (session_get_book_None i (commit_delete_book i db)));
        [done|].
      simpl. intros Hi. apply list_elem_of_fmap in Hi as (b & -> & Hb).
      by apply list_elem_of_filter in Hb as [? _].
    + split; [|done]. intros b. rewrite list_elem_of_filter. tauto.
  - intros Hin. unfold delete_author.
    destruct (session_get_author i db) eqn:Hg;
      [|by apply session_get_author_None in Hg].
    simpl. split; [done|]. split.
    + unfold get_author.
      rewrite (proj2 (session_get_author_None i (commit_delete_author i db)));
        [done|].
      simpl. intros Hi. apply list_elem_of_fmap in Hi as (a & -> & Ha).
      by apply list_elem_of_filter in Ha as [? _].
    + intros a. rewrite list_elem_of_filter. tauto.
Qed.

Lemma delete_then_get_witness :
  get_book 2 (delete_book 2 seeded).2 = error 404 "Book not found"
  ∧ get_author 2 (delete_author 2 seeded).2 = error 404 "Author not found".
Proof.
  destruct (delete_then_get 2 seeded) as [Hbook Hauthor].
  split.
  - apply Hbook. apply (bool_decide_unpack _). vm_compute. exact I.
  - apply Hauthor. apply (bool_decide_unpack _). vm_compute. exact I.
Defined.

(** *** Creating an author *)

Lemma first_author_by_name_None (v : string) (db : database) :
  first_author_by_name v db = None ↔ v ∉ Author.name <$> authors db.
Proof.
  unfold first_author_by_name. rewrite first_match_None, list_elem_of_fmap.
  split.
  - intros Hno (a & -> & Ha). by apply (Hno a).
  - intros Hno a Ha He. apply Hno. by exists a.
Qed.

Lemma name_free_new (v : string) (db : database) :
  name_free (next_author_id db) v db = true ↔ v ∉ Author.name <$> authors db.
Proof.
  unfold name_free.
  rewrite (filter_all (λ a, Author.id a ≠ next_author_id db))
    by apply next_author_id_fresh.
  apply bool_decide_eq_true.
Qed.

Lemma no_books_of_new_author (db : database) :
  referential_integrity db →
  filter (λ b, Book.author_id b = next_author_id db) (books db) = [].
Proof.
  intros Hfk. apply head_None, (first_match_None (λ b, _ = _)).
  intros b Hb Heq. specialize (Hfk b Hb).
  apply list_elem_of_fmap in Hfk as (a & Ha & Hin).
  apply (next_author_id_fresh db a Hin). congruence.
Qed.

(** X9: [POST /api/authors] answers 400 without a non-empty [name] or
    without a non-empty [city], and 400 when an author already has the
    name; in both cases nothing is stored.  Otherwise, on a database with
    referential integrity, it appends the author under a fresh id and
    answers 201 with the new author and an empty list of books. *)
Theorem create_author_outcomes (data : author_json) (db : database) :
  (truthy_str (j_name data) = false ∨ truthy_str (j_city data) = false →
     status (create_author data db).1 = 400
     ∧ (create_author data db).2 = db)
  ∧ (∀ n c,
       j_name data = Some n → nonempty n = true →
       j_city data = Some c → nonempty c = true →
       (n ∈ Author.name <$> authors db →
          create_author data db = (error 400 "Author already exists", db))
       ∧ (n ∉ Author.name <$> authors db →
          referential_integrity db →
          create_author data db
          = (mk_response 201
               (AuthorResult (Some "Author created successfully")
                  (mk_author_dict (next_author_id db) n c (Some []))),
             {| authors := authors db ++ [Author.mk (next_author_id db) n c];
                books := books db |})
          ∧ ∀ a, a ∈ authors db → Author.id a ≠ next_author_id db)).
Proof.
  split.
  - intros Hmissing. unfold create_author.
    destruct (author_json_empty data); [done|].
    destruct Hmissing as [-> | ->]; simpl; [done|].
    by rewrite orb_true_r.
  - intros n c Hn Hnn Hc Hnc. unfold create_author.
    assert (author_json_empty data = false) as ->.
    { unfold author_json_empty. by rewrite Hn. }
    rewrite Hn, Hc. simpl. rewrite Hnn, Hnc. simpl. split.
    + intros Hin.
      destruct (first_author_by_name n db) eqn:Hf; [done|].
      by apply first_author_by_name_None in Hf.
    + intros Hfree Hfk.
      rewrite (proj2 (first_author_by_name_None n db) Hfree).
      unfold commit_new_author. cbn -[author_to_dict].
      rewrite (proj2 (name_free_new n db) Hfree).
      unfold author_to_dict. cbn [books Author.id Author.name Author.city].
      rewrite (no_books_of_new_author db Hfk). simpl.
      split; [done|]. apply next_author_id_fresh.
Qed.

Lemma create_author_outcomes_witness :
  create_author (mk_author_json (Some "Luciano Ramalho") (Some "Sao Paulo") false)
                seeded
  = (mk_response 201
       (AuthorResult (Some "Author created successfully")
          (mk_author_dict 4 "Luciano Ramalho" "Sao Paulo" (Some []))),
     {| authors := authors seeded
                   ++ [Author.mk 4 "Luciano Ramalho" "Sao Paulo"];
        books := books seeded |}).
Proof.
  destruct (create_author_outcomes
              (mk_author_json (Some "Luciano Ramalho") (Some "Sao Paulo") false)
              seeded) as [_ Hcreate].
  destruct (Hcreate "Luciano Ramalho" "Sao Paulo" eq_refl eq_refl eq_refl eq_refl)
    as [_ Hok].
  apply Hok; [|exact seeded_integrity].
  apply (bool_decide_unpack _). vm_compute. exact I.
Defined.

(** *** Updates have no duplicate guard *)

Lemma update_book_duplicate_isbn_aux (i : Z) (s : string) (db : database) :
  Some s ∈ Book.isbn <$> filter (λ b, Book.id b ≠ i) (books db) →
  isbn_free i (Some s) db = false.
Proof. intros Hin. unfold isbn_free. apply bool_decide_eq_false. tauto. Qed.

(** X11: [PUT /api/books/<id>] does not check the isbn the way the
    create route does: setting the isbn of an existing book to one that
    another book holds fails at the commit, the answer is 500 and the
    database stays as it was. *)
Theorem update_book_duplicate_isbn (i : Z) (data : book_json) (db : database)
        (old : Book.t) (s : string) :
  session_get_book i db = Some old →
  j_isbn data = Some (Some s) →
  Some s ∈ Book.isbn <$> filter (λ b, Book.id b ≠ i) (books db) →
  (∀ v, j_author_id data = Some v → v ∈ Author.id <$> authors db) →
  update_book i data db = (internal_error, db).
Proof.
  intros Hold Hisbn Hdup Hauthor.
  assert (Hne : book_json_empty data = false).
  { unfold book_json_empty. rewrite Hisbn. simpl.
    by rewrite !andb_false_r. }
  destruct (update_book_cases i data db old Hold Hne)
    as [(v & Hv & Hno & _) | (_ & [Hr | (r & db' & _ & Hcommit)])].
  - by destruct (Hno (Hauthor v Hv)).
  - done.
  - exfalso. unfold commit_book in Hcommit.
    destruct (assigned_fields data old) as (_ & _ & _ & _ & Hi & _).
    rewrite Hi, Hisbn in Hcommit.
    change (default (Book.isbn old) (Some (Some s))) with (Some s) in Hcommit.
    by rewrite (update_book_duplicate_isbn_aux i s db Hdup) in Hcommit.
Qed.

Lemma update_book_duplicate_isbn_witness :
  update_book 2 (mk_book_json None None None (Some (Some "978-0132350884")) false)
              seeded
  = (internal_error, seeded).
Proof.
  apply (update_book_duplicate_isbn 2 _ seeded
           (Book.mk 2 "Flask Web Development" (Some 2018)
                    (Some "978-1491991732") (Some 0) 2)
           "978-0132350884").
  - reflexivity.
  - reflexivity.
  - apply (bool_decide_unpack _). vm_compute. exact I.
  - intros v [=].
Defined.

Lemma updated_author_eq (data : author_json) (old : Author.t) :
  match j_city data with
  | Some v =>
    Author.mk
      (Author.id match j_name data with
                 | Some v0 => Author.mk (Author.id old) v0 (Author.city old)
                 | None => old
                 end)
      (Author.name match j_name data with
                   | Some v0 => Author.mk (Author.id old) v0 (Author.city old)
                   | None => old
                   end) v
  | None => match j_name data with
            | Some v0 => Author.mk (Author.id old) v0 (Author.city old)
            | None => old
            end
  end = updated_author data old.
Proof.
  unfold updated_author. destruct old, (j_name data), (j_city data); done.
Qed.

(** X10: [PUT /api/authors/<id>] on an existing author with a non-empty
    body fails with status 500, storing nothing, when the name it would
    store is held by another author.  Otherwise it stores the supplied
    name and city under the same id, keeps the fields the body does not
    name, leaves the other authors and all books as they were, and
    answers 200 with the author and the books that reference it. *)
Theorem update_author_existing (i : Z) (data : author_json) (db : database)
        (old : Author.t) :
  session_get_author i db = Some old →
  author_json_empty data = false →
  (Author.name (updated_author data old)
     ∈ Author.name <$> filter (λ a, Author.id a ≠ i) (authors db) →
     update_author i data db = (internal_error, db))
  ∧ (Author.name (updated_author data old)
       ∉ Author.name <$> filter (λ a, Author.id a ≠ i) (authors db) →
     ∃ bs,
       (update_author i data db).1
       = mk_response 200
           (AuthorResult (Some "Author updated successfully")
              (mk_author_dict i (default (Author.name old) (j_name data))
                              (default (Author.city old) (j_city data))
                              (Some bs)))
       ∧ d_id <$> bs
         = Book.id <$> filter (λ b, Book.author_id b = i) (books db)
       ∧ session_get_author i (update_author i data db).2
         = Some (updated_author data old)
       ∧ filter (λ a, Author.id a ≠ i) (authors (update_author i data db).2)
         = filter (λ a, Author.id a ≠ i) (authors db)
       ∧ books (update_author i data db).2 = books db).
Proof.
  intros Hold Hne. unfold update_author. rewrite Hold, Hne.
  rewrite updated_author_eq.
  destruct (session_get_author_Some i db old Hold) as [_ Hid].
  assert (Hidnew : Author.id (updated_author data old) = i) by done.
  unfold commit_author, name_free. split.
  - intros Hdup. by rewrite bool_decide_false by tauto.
  - intros Hfree. rewrite bool_decide_true by done.
    set (new := updated_author data old) in *.
    set (db' := {| authors := (λ r, if decide (Author.id r = i) then new else r)
                                <$> authors db;
                   books := books db |}).
    assert (Hget : session_get_author i db' = Some new).
    { unfold session_get_author. simpl.
      apply (replace_lookup Author.id); [done|].
      unfold session_get_author in Hold. by rewrite Hold. }
    destruct (books_to_dicts_Some db'
                (filter (λ b, Book.author_id b = Author.id new) (books db')))
      as (bs & Hbs & Hids).
    { intros b Hb. apply list_elem_of_filter in Hb as [-> _].
      apply session_get_author_is_Some. rewrite Hidnew. by rewrite Hget. }
    unfold author_to_dict. rewrite Hbs. simpl. exists bs.
    rewrite Hid. split; [done|].
    split; [rewrite Hids; by rewrite Hidnew|].
    split; [done|]. split; [|done].
    by apply (replace_others Author.id).
Qed.

Lemma update_author_existing_witness :
  update_author 1 (mk_author_json (Some "Miguel Grinberg") None false) seeded
  = (internal_error, seeded)
  ∧ session_get_author 1
      (update_author 1 (mk_author_json None (Some "Fresno") false) seeded).2
    = Some (Author.mk 1 "Eric Matthes" "Fresno").
Proof.
  split.
  - apply (update_author_existing 1
             (mk_author_json (Some "Miguel Grinberg") None false) seeded
             (Author.mk 1 "Eric Matthes" "New York") eq_refl eq_refl).
    apply (bool_decide_unpack _). vm_compute. exact I.
  - destruct (update_author_existing 1
                (mk_author_json None (Some "Fresno") false) seeded
                (Author.mk 1 "Eric Matthes" "New York") eq_refl eq_refl)
      as [_ Hok].
    destruct Hok as (bs & _ & _ & Hget & _); [|exact Hget].
    apply (bool_decide_unpack _). vm_compute. exact I.
Defined.

(** *** The unique keys are kept by every route *)

Lemma commit_new_book_unique (b : Book.t) (db db' : database) :
  unique_keys db → Book.id b = next_book_id db →
  commit_new_book b db = Some db' → unique_keys db'.
Proof.
  intros (Hb & Ha & Hn & Hi) Hid Hc. unfold commit_new_book in Hc.
  rewrite Hid in Hc.
  destruct (isbn_free (next_book_id db) (Book.isbn b) db) eqn:Hfree; [|done].
  injection Hc as <-. unfold unique_keys. simpl. split_all; try done.
  - rewrite fmap_app. apply NoDup_snoc_fresh; [done|]. rewrite Hid.
    intros Hin. apply list_elem_of_fmap in Hin as (b' & Heq & Hb').
    by apply (next_book_id_fresh db b').
  - rewrite omap_app, omap_cons_case. simpl.
    destruct (Book.isbn b) as [s|] eqn:Hs; [|by rewrite app_nil_r].
    apply NoDup_snoc_fresh; [done|]. apply not_elem_of_omap.
    by apply (isbn_free_new (Some s) db).
Qed.

Lemma create_book_unique (now : Z) (data : book_json) (db : database) :
  unique_keys db → unique_keys (create_book now data db).2.
Proof.
  intros Hu.
  destruct (create_book_cases now data db)
    as [(_ & _ & ->) | (t & a & _ & _ & _ & _ & Hcases)]; [done|].
  destruct Hcases as [[_ ->] | (author & Hg & Hcases)]; [done|].
  destruct Hcases as [(s & _ & _ & _ & ->)
                     | [(s & _ & _ & _ & ->) | [Hfree ->]]]; [done|done|].
  apply (commit_new_book_unique (created_book now data db t a) db); [done..|].
  unfold commit_new_book, created_book. cbn [Book.id Book.isbn].
  by rewrite (proj2 (isbn_free_new (mjoin (j_isbn data)) db) Hfree).
Qed.

Lemma commit_book_unique (i : Z) (b : Book.t) (db db' : database) :
  unique_keys db → Book.id b = i → i ∈ Book.id <$> books db →
  commit_book i b db = Some db' → unique_keys db'.
Proof.
  intros (Hb & Ha & Hn & Hi) Hid Hin Hc. unfold commit_book in Hc.
  destruct (isbn_free i (Book.isbn b) db) eqn:Hfree; [|done].
  injection Hc as <-. unfold unique_keys. simpl. split_all; try done.
  - by rewrite (replace_keys Book.id).
  - apply list_elem_of_fmap in Hin as (old & Hold & Hin).
    destruct (keyed_split Book.id (books db) old Hb Hin)
      as (l1 & l2 & Hbooks & Hothers).
    rewrite <- Hold in Hothers. unfold isbn_free in Hfree.
    rewrite Hbooks in Hi, Hfree |- *.
    rewrite (replace_keyed Book.id l1 l2 old b i) by done.
    rewrite (others_keyed Book.id l1 l2 old i) in Hfree by done.
    apply (NoDup_omap_replace _ _ _ old); [done|].
    intros s Hs. rewrite Hs in Hfree.
    apply bool_decide_eq_true in Hfree. by apply not_elem_of_omap.
Qed.

Lemma update_book_unique (i : Z) (data : book_json) (db : database) :
  unique_keys db → unique_keys (update_book i data db).2.
Proof.
  intros Hu.
  destruct (session_get_book i db) as [old|] eqn:Hold.
  2:{ unfold update_book. by rewrite Hold. }
  destruct (book_json_empty data) eqn:Hempty.
  { unfold update_book. by rewrite Hold, Hempty. }
  destruct (update_book_cases i data db old Hold Hempty)
    as [(v & _ & _ & ->) | (_ & [-> | (r & db' & -> & Hcommit)])];
    [done|done|].
  destruct (session_get_book_Some i db old Hold) as [Hin Hid].
  destruct (assigned_fields data old) as (Hidnew & _).
  eapply (commit_book_unique i _ db db' Hu); [| |exact Hcommit].
  - congruence.
  - rewrite <- Hid. by apply list_elem_of_fmap_2.
Qed.

Lemma delete_book_unique (i : Z) (db : database) :
  unique_keys db → unique_keys (delete_book i db).2.
Proof.
  intros (Hb & Ha & Hn & Hi). unfold delete_book.
  destruct (session_get_book i db); [|done].
  unfold unique_keys. simpl. split_all; try done.
  - by apply NoDup_fmap_filter.
  - by apply NoDup_omap_filter.
Qed.

Lemma create_author_unique (data : author_json) (db : database) :
  unique_keys db → unique_keys (create_author data db).2.
Proof.
  intros Hu. pose proof Hu as (Hb & Ha & Hn & Hi).
  unfold create_author.
  destruct (author_json_empty data); [done|].
  destruct (negb (truthy_str (j_name data)) || negb (truthy_str (j_city data)));
    [done|].
  destruct (j_name data) as [n|]; [|done]. cbn -[author_to_dict].
  destruct (first_author_by_name n db); [done|].
  destruct (j_city data) as [c|]; [|done]. cbn -[author_to_dict].
  unfold commit_new_author. cbn -[author_to_dict].
  destruct (name_free (next_author_id db) n db) eqn:Hfree; [|done].
  assert (Hgrow : unique_keys
            {| authors := authors db ++ [Author.mk (next_author_id db) n c];
               books := books db |}).
  { unfold unique_keys. simpl. rewrite !fmap_app. simpl. split_all; try done.
    - apply NoDup_snoc_fresh; [done|].
      intros Hin. apply list_elem_of_fmap in Hin as (a & Heq & Hin).
      by apply (next_author_id_fresh db a).
    - apply NoDup_snoc_fresh; [done|]. by apply name_free_new. }
  match goal with
  | |- context [author_to_dict ?db' true ?new] =>
      destruct (author_to_dict db' true new)
  end; exact Hgrow.
Qed.

Lemma update_author_unique (i : Z) (data : author_json) (db : database) :
  unique_keys db → unique_keys (update_author i data db).2.
Proof.
  intros Hu. pose proof Hu as (Hb & Ha & Hn & Hi).
  unfold update_author.
  destruct (session_get_author i db) as [old|] eqn:Hold; [|done].
  destruct (author_json_empty data); [done|].
  rewrite updated_author_eq.
  destruct (session_get_author_Some i db old Hold) as [Hin Hid].
  set (new := updated_author data old).
  assert (Hidnew : Author.id new = i) by done.
  unfold commit_author, name_free.
  case_bool_decide as Hfree; [|done].
  assert (Hkept : unique_keys
            {| authors := (λ r, if decide (Author.id r = i) then new else r)
                            <$> authors db;
               books := books db |}).
  { unfold unique_keys. simpl. split_all; try done.
    - by rewrite (replace_keys Author.id).
    - destruct (keyed_split Author.id (authors db) old Ha Hin)
        as (l1 & l2 & Hauthors & Hothers).
      rewrite Hid in Hothers. rewrite Hauthors in Hn, Hfree |- *.
      rewrite (replace_keyed Author.id l1 l2 old new i) by done.
      rewrite (others_keyed Author.id l1 l2 old i) in Hfree by done.
      rewrite fmap_app, fmap_cons in Hn |- *.
      apply (NoDup_replace_middle _ _ (Author.name old)); [done|].
      by rewrite <- fmap_app. }
  match goal with
  | |- context [author_to_dict ?db' true new] =>
      destruct (author_to_dict db' true new)
  end; exact Hkept.
Qed.

Lemma delete_author_unique (i : Z) (db : database) :
  unique_keys db → unique_keys (delete_author i db).2.
Proof.
  intros (Hb & Ha & Hn & Hi). unfold delete_author.
  destruct (session_get_author i db); [|done].
  unfold unique_keys. simpl. split_all.
  - by apply NoDup_fmap_filter.
  - by apply NoDup_fmap_filter.
  - by apply NoDup_fmap_filter.
  - by apply NoDup_omap_filter.
Qed.

Lemma seeded_unique : unique_keys seeded.
Proof.
  unfold unique_keys. split_all; apply (bool_decide_unpack _);
    vm_compute; exact I.
Defined.

(** X12: the primary keys, the author names and the non-null isbns stay
    unique under every route that writes: if they are unique before a
    create, update or delete of a book or an author, they are unique
    after it, whatever the request holds and whatever the answer is. *)
Theorem unique_keys_kept (db : database) (now i : Z) (bdata : book_json)
        (adata : author_json) :
  unique_keys db →
  unique_keys (create_book now bdata db).2
  ∧ unique_keys (update_book i bdata db).2
  ∧ unique_keys (delete_book i db).2
  ∧ unique_keys (create_author adata db).2
  ∧ unique_keys (update_author i adata db).2
  ∧ unique_keys (delete_author i db).2.
Proof.
  intros Hu. split_all.
  - by apply create_book_unique.
  - by apply update_book_unique.
  - by apply delete_book_unique.
  - by apply create_author_unique.
  - by apply update_author_unique.
  - by apply delete_author_unique.
Qed.

Lemma unique_keys_kept_witness :
  unique_keys seeded
  ∧ unique_keys
      (create_book 7 (mk_book_json (Some "Fluent Python") (Some 1) None
                                   (Some (Some "978-1491946008")) false)
                   seeded).2
  ∧ unique_keys (delete_author 2 seeded).2.
Proof.
  split; [exact seeded_unique|].
  split;
    apply (unique_keys_kept seeded 7 2
             (mk_book_json (Some "Fluent Python") (Some 1) None
                           (Some (Some "978-1491946008")) false)
             (mk_author_json None None false) seeded_unique).
Defined.

(** X13: referential integrity is kept by every route that writes: if
    every book references an existing author before a create, update or
    delete of a book or an author, the same holds after it. *)
Theorem referential_integrity_kept (db : database) (now i : Z)
        (bdata : book_json) (adata : author_json) :
  referential_integrity db →
  referential_integrity (create_book now bdata db).2
  ∧ referential_integrity (update_book i bdata db).2
  ∧ referential_integrity (delete_book i db).2
  ∧ referential_integrity (create_author adata db).2
  ∧ referential_integrity (update_author i adata db).2
  ∧ referential_integrity (delete_author i db).2.
Proof.
  intros Hfk. split_all.
  - by apply create_book_integrity.
  - by apply update_book_integrity.
  - by apply delete_book_integrity.
  - by apply create_author_integrity.
  - by apply update_author_integrity.
  - by apply delete_author_integrity.
Qed.

Lemma referential_integrity_kept_witness :
  referential_integrity seeded
  ∧ referential_integrity (delete_author 2 seeded).2
  ∧ referential_integrity
      (update_book 1 (mk_book_json None (Some 3) None None false) seeded).2.
Proof.
  split; [exact seeded_integrity|]. split.
  - apply (referential_integrity_kept seeded 0 2
             (mk_book_json None (Some 3) None None false)
             (mk_author_json None None false) seeded_integrity).
  - apply (referential_integrity_kept seeded 0 1
             (mk_book_json None (Some 3) None None false)
             (mk_author_json None None false) seeded_integrity).
Defined.

(** *** Sorting by any column *)

Lemma sql_leb_total (x y : sql_value) : sql_leb x y = true ∨ sql_leb y x = true.
Proof.
  destruct x as [|a|a], y as [|b|b]; simpl; auto.
  - destruct (Z.leb_spec a b), (Z.leb_spec b a); auto; lia.
  - apply String.leb_total.
Qed.

#[local] Instance column_le_total (c : column) (d : bool) : Total (column_le c d).
Proof.
  intros x y. unfold column_le.
  destruct d;
    [destruct (sql_leb_total (column_value c y) (column_value c x)) as [->| ->]
    |destruct (sql_leb_total (column_value c x) (column_value c y)) as [->| ->]];
    simpl; auto.
Qed.

(** X14: on a database with referential integrity the sorted listing
    answers 200, echoes the [sort] and [order] parameters (by default
    [id] and [asc]), counts all books and lists each of them once, any
    two neighbours in the order of the chosen column: the column the
    whitelist gives for [sort], or [id] for any other name, descending
    when [order] lower-cases to [desc] and ascending otherwise, a null
    before every value when ascending. *)
Theorem sorted_listing (args : gmap string string) (db : database) :
  referential_integrity db →
  ∃ l ds,
    get_books_sorted args db
    = mk_response 200
        (BookSorted (default "id" (args !! "sort"))
                    (default "asc" (args !! "order"))
                    (length (books db)) ds)
    ∧ books_to_dicts db l = Some ds
    ∧ d_id <$> ds = Book.id <$> l
    ∧ l ≡ₚ books db
    ∧ Sorted (column_le
                (default Book_id (allowed_sorts !! default "id" (args !! "sort")))
                (bool_decide (lower (default "asc" (args !! "order")) = "desc")))
             l.
Proof.
  intros Hfk. unfold get_books_sorted.
  set (c := default Book_id (allowed_sorts !! default "id" (args !! "sort"))).
  set (order := default "asc" (args !! "order")).
  set (d := bool_decide (lower order = "desc")).
  assert (Hq : (if decide (lower order = "desc")
                then order_by c true (books db)
                else order_by c false (books db))
               = order_by c d (books db)).
  { subst d. by case_decide; [rewrite bool_decide_true|rewrite bool_decide_false]. }
  rewrite Hq.
  pose proof (order_by_Permutation c d (books db)) as Hperm.
  destruct (books_to_dicts_Some db (order_by c d (books db)))
    as (ds & Hds & Hids).
  { intros b Hb. apply Hfk. by rewrite <- Hperm. }
  exists (order_by c d (books db)), ds. rewrite Hds.
  split. { by rewrite Hperm. }
  split; [done|]. split; [done|]. split; [done|].
  apply (Sorted_merge_sort (column_le c d)).
Qed.

Lemma sorted_listing_witness :
  ∃ l ds,
    get_books_sorted {[ "sort" := "title" ]} seeded
    = mk_response 200 (BookSorted "title" "asc" 3 ds)
    ∧ d_id <$> ds = Book.id <$> l
    ∧ Sorted (column_le Book_title false) l.
Proof.
  destruct (sorted_listing {[ "sort" := "title" ]} seeded seeded_integrity)
    as (l & ds & Hr & _ & Hids & _ & Hsorted).
  exists l, ds. split; [exact Hr|]. split; [exact Hids|exact Hsorted].
Defined.

Example sorted_by_title_and_year :
  listed_ids (get_books_sorted {[ "sort" := "title" ]} seeded) = [3; 2; 1]
  ∧ listed_ids (get_books_sorted {[ "sort" := "year"; "order" := "Desc" ]}
                                  seeded) = [1; 2; 3]
  ∧ listed_ids (get_books_sorted ∅ seeded) = [1; 2; 3].
Proof. done. Qed.

(** *** Walking the pages *)

Lemma get_books_paginated_ok (args : gmap string string) (db : database) :
  referential_integrity db →
  ∃ ds,
    get_books_paginated args db
    = (let page := default 1 (args_get_int args "page") in
       let per_page := Z.min (default 5 (args_get_int args "per_page")) 100 in
       let p := paginate (order_by Book_id false (books db)) page per_page in
       mk_response 200
         (BookPage page per_page (total p) (pages p) (has_next p) (has_prev p)
                   ds))
    ∧ d_id <$> ds
      = Book.id <$>
          items (paginate (order_by Book_id false (books db))
                          (default 1 (args_get_int args "page"))
                          (Z.min (default 5 (args_get_int args "per_page")) 100)).
Proof.
  intros Hfk. unfold get_books_paginated.
  set (page := default 1 (args_get_int args "page")).
  set (per_page := Z.min (default 5 (args_get_int args "per_page")) 100).
  set (query := order_by Book_id false (books db)).
  destruct (books_to_dicts_Some db (items (paginate query page per_page)))
    as (ds & Hds & Hids).
  { intros b Hb. apply Hfk.
    rewrite <- (order_by_Permutation Book_id false (books db)).
    by apply (paginate_items_subseteq query page per_page). }
  exists ds. by rewrite Hds.
Qed.

Lemma paginated_ids (args : gmap string string) (db : database) (k : nat) (n : Z) :
  referential_integrity db →
  1 ≤ n ≤ 100 →
  args_get_int args "page" = Some (Z.of_nat k + 1) →
  args_get_int args "per_page" = Some n →
  listed_ids (get_books_paginated args db)
  = Book.id <$> take (Z.to_nat n)
                     (drop (k * Z.to_nat n) (order_by Book_id false (books db))).
Proof.
  intros Hfk Hn Hpage Hsize.
  destruct (get_books_paginated_ok args db Hfk) as (ds & -> & Hids).
  rewrite Hpage, Hsize in Hids |- *. simpl in Hids |- *.
  unfold listed_ids. cbn [payload]. rewrite Hids.
  unfold paginate. cbn [items].
  replace (Z.min n 100) with n by lia.
  destruct (Z.ltb_spec (Z.of_nat k + 1) 1); [lia|].
  destruct (Z.ltb_spec n 1); [lia|].
  do 3 f_equal. nia.
Qed.

(** X15: walking the pages lists every book once.  On a database with
    referential integrity, requests for the pages 1, 2, ... with one page
    size between 1 and 100, as many as it takes to reach the number of
    books, list between them the ids of all books in ascending order:
    no book is skipped and none is listed twice. *)
Theorem pages_cover (db : database) (n : Z) (reqs : list (gmap string string)) :
  referential_integrity db →
  1 ≤ n ≤ 100 →
  (∀ k args, reqs !! k = Some args →
     args_get_int args "page" = Some (Z.of_nat k + 1)
     ∧ args_get_int args "per_page" = Some n) →
  Z.of_nat (length (books db)) ≤ Z.of_nat (length reqs) * n →
  concat ((λ args, listed_ids (get_books_paginated args db)) <$> reqs)
  = Book.id <$> order_by Book_id false (books db).
Proof.
  intros Hfk Hn Hreqs Hlen.
  set (query := order_by Book_id false (books db)).
  assert (Hprefix : ∀ rs,
    (∀ k args, rs !! k = Some args →
       args_get_int args "page" = Some (Z.of_nat k + 1)
       ∧ args_get_int args "per_page" = Some n) →
    concat ((λ args, listed_ids (get_books_paginated args db)) <$> rs)
    = Book.id <$> take (length rs * Z.to_nat n) query).
  { induction rs as [|args rs IH] using rev_ind; intros Hrs; [done|].
    rewrite fmap_app, concat_app, IH.
    2:{ intros k a Hk. apply Hrs. by apply lookup_app_l_Some. }
    destruct (Hrs (length rs) args) as [Hpage Hsize].
    { by rewrite lookup_app_r, Nat.sub_diag by lia. }
    simpl. rewrite app_nil_r.
    rewrite (paginated_ids args db (length rs) n Hfk Hn Hpage Hsize).
    fold query. rewrite <- fmap_app, take_take_drop.
    f_equal. f_equal. rewrite length_app. simpl. lia. }
  rewrite (Hprefix reqs Hreqs). f_equal. apply take_ge.
  subst query. rewrite (order_by_Permutation Book_id false (books db)). nia.
Qed.

Lemma pages_cover_witness :
  concat ((λ args, listed_ids (get_books_paginated args seeded))
            <$> [ {[ "page" := "1"; "per_page" := "2" ]};
                  {[ "page" := "2"; "per_page" := "2" ]} ])
  = Book.id <$> order_by Book_id false (books seeded).
Proof.
  apply (pages_cover seeded 2); [exact seeded_integrity | lia | | simpl; lia].
  intros [|[|k]] args Hk; simpl in Hk; [| |done];
    injection Hk as <-; split; reflexivity.
Defined.

(** *** What a search lists *)

(** One stage of the query: either the rows are kept as they are, with
    nothing asked of them, or they are filtered. *)
Lemma search_stage (P : Book.t → Prop) `{!∀ b, Decision (P b)}
      (C : Book.t → Prop) (active : bool) (l : list Book.t) :
  (if active then ∀ b, C b ↔ P b else ∀ b, C b) →
  (if active then filter P l else l) `sublist_of` l
  ∧ ∀ b, b ∈ (if active then filter P l else l) ↔ b ∈ l ∧ C b.
Proof.
  destruct active; intros HC.
  - split; [apply sublist_filter|].
    intros b. rewrite list_elem_of_filter, HC. tauto.
  - split; [done|]. intros b. specialize (HC b). tauto.
Qed.

(** The three stages of the query, for the integers the driver binds:
    each stage that is in force filters the rows the stage before it
    left. *)
Lemma search_books_found (args : gmap string string) (db : database) :
  referential_integrity db →
  truthy_str (args !! "author") = false
  ∨ truthy_int (args_get_int args "year") = false →
  ∃ found ds,
    search_books args db = mk_response 200 (BookList (length found) ds)
    ∧ d_id <$> ds = Book.id <$> found
    ∧ found `sublist_of` books db
    ∧ (∀ b, b ∈ found ↔ b ∈ books db ∧ search_match args db b)
    ∧ (args !! "q" = None → args !! "author" = None → args !! "year" = None →
       found = books db).
Proof.
  intros Hfk Hnot. unfold search_books.
  set (q1 := match args !! "q" with
             | Some t => if nonempty t
                         then filter (λ b, ilike (Book.title b)
                                             (contains_pattern t) = true)
                                     (books db)
                         else books db
             | None => books db
             end).
  set (q2 := match args !! "author" with
             | Some a => if nonempty a
                         then join_author_ilike (contains_pattern a) db q1
                         else q1
             | None => q1
             end).
  assert (H1 : q1 `sublist_of` books db
               ∧ ∀ b, b ∈ q1 ↔ b ∈ books db
                      ∧ (∀ t, args !! "q" = Some t → nonempty t = true →
                              ilike (Book.title b) (contains_pattern t) = true)).
  { unfold q1. destruct (args !! "q") as [t|].
    - apply (search_stage
               (λ b, ilike (Book.title b) (contains_pattern t) = true)).
      destruct (nonempty t) eqn:Hnt.
      + intros b. split; [intros H; by apply (H t)|]. by intros ? ? [= <-] ?.
      + intros b ? [= <-] ?. congruence.
    - split; [done|]. intros b. split; [by intros ?|by intros [? _]]. }
  assert (H2 : q2 `sublist_of` q1
               ∧ ∀ b, b ∈ q2 ↔ b ∈ q1
                      ∧ (∀ a, args !! "author" = Some a → nonempty a = true →
                              author_name_ilike (contains_pattern a) db b
                              = true)).
  { unfold q2. destruct (args !! "author") as [a|].
    - apply (search_stage
               (λ b, author_name_ilike (contains_pattern a) db b = true)).
      destruct (nonempty a) eqn:Hna.
      + intros b. split; [intros H; by apply (H a)|]. by intros ? ? [= <-] ?.
      + intros b ? [= <-] ?. congruence.
    - split; [done|]. intros b. split; [by intros ?|by intros [? _]]. }
  destruct H1 as [Hsub1 Hin1], H2 as [Hsub2 Hin2].
  assert (H3 : ∃ found,
    match args_get_int args "year" with
    | Some y => if negb (y =? 0)
                then filter_by_year (truthy_str (args !! "author")) y q2
                else Some q2
    | None => Some q2
    end = Some found
    ∧ found `sublist_of` q2
    ∧ (args_get_int args "year" = None → found = q2)
    ∧ ∀ b, b ∈ found ↔ b ∈ q2
           ∧ (∀ y, args_get_int args "year" = Some y → y ≠ 0 →
                   Book.year b = Some y)).
  { destruct (args_get_int args "year") as [y|] eqn:Hy.
    - destruct (Z.eqb_spec y 0) as [->|Hy0]; simpl.
      + exists q2. split; [done|]. split; [done|]. split; [done|].
        intros b. split; [|by intros [? _]].
        intros Hb. split; [done|]. by intros ? [= <-].
      + destruct Hnot as [Hnot|Hnot].
        2:{ simpl in Hnot. apply negb_false_iff, Z.eqb_eq in Hnot. done. }
        rewrite Hnot. unfold filter_by_year.
        eexists. split; [done|]. split; [apply sublist_filter|].
        split; [done|].
        intros b. rewrite list_elem_of_filter. split.
        * intros [Hyear Hb]. split; [done|]. by intros ? [= <-].
        * intros [Hb Hyear]. split; [by apply Hyear|done].
    - exists q2. split; [done|]. split; [done|]. split; [done|].
      intros b. split; [|by intros [? _]]. by intros Hb. }
  destruct H3 as (found & -> & Hsub3 & Hnone3 & Hin3). simpl.
  assert (Hsub : found `sublist_of` books db) by (by etrans; [|etrans]).
  destruct (books_to_dicts_Some db found) as (ds & Hds & Hids).
  { intros b Hb. apply Hfk. by apply (sublist_subseteq _ _ Hsub). }
  rewrite Hds. simpl. exists found, ds.
  split; [done|]. split; [done|]. split; [done|]. split.
  - intros b. rewrite Hin3, Hin2, Hin1. unfold search_match. tauto.
  - intros Hq Ha Hy. rewrite Hnone3 by (unfold args_get_int; by rewrite Hy).
    unfold q2, q1. by rewrite Ha, Hq.
Qed.

(** X17: unless both an author filter and a year filter are in force, a
    search on a database with referential integrity, for a year that the
    database can bind (a signed 64-bit integer), answers 200 and lists
    exactly the books that pass every filter the request supplies: the
    title pattern, the pattern on the name of the book's author, and the
    year; the books keep the order of the table, the count is their
    number, and a request without filters lists every book. *)
Theorem search_lists_matches (args : gmap string string) (db : database) :
  referential_integrity db →
  (∀ y, args_get_int args "year" = Some y → int64 y) →
  truthy_str (args !! "author") = false
  ∨ truthy_int (args_get_int args "year") = false →
  ∃ found ds,
    search_books args db = mk_response 200 (BookList (length found) ds)
    ∧ d_id <$> ds = Book.id <$> found
    ∧ found `sublist_of` books db
    ∧ (∀ b, b ∈ found ↔ b ∈ books db ∧ search_match args db b)
    ∧ (args !! "q" = None → args !! "author" = None → args !! "year" = None →
       found = books db).
Proof.
  intros Hfk _ Hnot.
  destruct (search_books_found args db Hfk Hnot)
    as (found & ds & Hr & Hids & Hsub & Hin & Hall).
  exists found, ds. split_all; done.
Qed.

Lemma search_lists_matches_witness :
  (∀ y, args_get_int {[ "q" := "c"; "year" := "2008" ]} "year" = Some y →
        int64 y)
  ∧ ∃ found ds,
      search_books {[ "q" := "c"; "year" := "2008" ]} seeded
      = mk_response 200 (BookList (length found) ds)
      ∧ d_id <$> ds = Book.id <$> found
      ∧ found `sublist_of` books seeded.
Proof.
  assert (Hy : ∀ y, args_get_int {[ "q" := "c"; "year" := "2008" ]} "year"
                    = Some y → int64 y).
  { intros y Hy2008.
    assert (y = 2008) as -> by (vm_compute in Hy2008; congruence).
    unfold int64. lia. }
  split; [exact Hy|].
  destruct (search_lists_matches {[ "q" := "c"; "year" := "2008" ]} seeded
              seeded_integrity Hy)
    as (found & ds & Hr & Hids & Hsub & _); [left; reflexivity|].
  by exists found, ds.
Defined.

(** C9: a [year] parameter that parses to 0, or that does not parse as
    an integer, puts no filter on the year.  The search answers as it
    does without the parameter, and on a database with referential
    integrity that answer is 200 with exactly the books that pass the
    title and author filters of the request, whatever their year, in the
    order of the table; with neither of these filters it lists every
    book. *)
Theorem search_ignores_falsy_year (args : gmap string string) (db : database)
        (v : string) :
  py_int v = Some 0 ∨ py_int v = None →
  search_books (<["year" := v]> args) db
  = search_books (delete "year" args) db
  ∧ (referential_integrity db →
     ∃ found ds,
       search_books (<["year" := v]> args) db
       = mk_response 200 (BookList (length found) ds)
       ∧ d_id <$> ds = Book.id <$> found
       ∧ found `sublist_of` books db
       ∧ (∀ b, b ∈ found ↔
               b ∈ books db
               ∧ (∀ t, args !! "q" = Some t → nonempty t = true →
                       ilike (Book.title b) (contains_pattern t) = true)
               ∧ (∀ a, args !! "author" = Some a → nonempty a = true →
                       author_name_ilike (contains_pattern a) db b = true))
       ∧ (args !! "q" = None → args !! "author" = None →
          found = books db)).
Proof.
  intros Hv.
  assert (Heq : search_books (<["year" := v]> args) db
                = search_books (delete "year" args) db).
  { unfold search_books, args_get_int.
    rewrite (lookup_insert_ne args "year" "q") by done.
    rewrite (lookup_insert_ne args "year" "author") by done.
    rewrite (lookup_delete_ne args "year" "q") by done.
    rewrite (lookup_delete_ne args "year" "author") by done.
    rewrite lookup_insert_eq, lookup_delete_eq. simpl.
    by destruct Hv as [-> | ->]. }
  split; [exact Heq|]. intros Hfk. rewrite Heq.
  assert (Hyear : args_get_int (delete "year" args) "year" = None).
  { unfold args_get_int. by rewrite lookup_delete_eq. }
  destruct (search_books_found (delete "year" args) db Hfk)
    as (found & ds & Hr & Hids & Hsub & Hin & Hall).
  { right. by rewrite Hyear. }
  exists found, ds. split; [exact Hr|]. split; [exact Hids|].
  split; [exact Hsub|]. split.
  - intros b. rewrite Hin. unfold search_match. rewrite Hyear.
    rewrite (lookup_delete_ne args "year" "q") by done.
    rewrite (lookup_delete_ne args "year" "author") by done.
    split.
    + intros (Hb & Ht & Ha & _). done.
    + intros (Hb & Ht & Ha). split; [done|]. split; [done|].
      split; [done|]. intros y Hy. discriminate Hy.
  - intros Hq Ha. apply Hall.
    + by rewrite (lookup_delete_ne args "year" "q").
    + by rewrite (lookup_delete_ne args "year" "author").
    + apply lookup_delete_eq.
Qed.

Lemma search_ignores_falsy_year_witness :
  (py_int "0" = Some 0 ∨ py_int "0" = None)
  ∧ (py_int "20x8" = Some 0 ∨ py_int "20x8" = None)
  ∧ (∃ found ds,
       search_books (<["year" := "0"]> ∅) seeded
       = mk_response 200 (BookList (length found) ds)
       ∧ found = books seeded)
  ∧ search_books (<["year" := "20x8"]> {[ "q" := "code" ]}) seeded
    = search_books (delete "year" {[ "q" := "code" ]}) seeded.
Proof.
  assert (H0 : py_int "0" = Some 0 ∨ py_int "0" = None)
    by (left; reflexivity).
  assert (Hx : py_int "20x8" = Some 0 ∨ py_int "20x8" = None)
    by (right; reflexivity).
  split; [exact H0|]. split; [exact Hx|]. split.
  - destruct (proj2 (search_ignores_falsy_year ∅ seeded "0" H0)
                    seeded_integrity)
      as (found & ds & Hr & _ & _ & _ & Hall).
    exists found, ds. split; [exact Hr|]. apply Hall; reflexivity.
  - exact (proj1 (search_ignores_falsy_year {[ "q" := "code" ]} seeded
                    "20x8" Hx)).
Defined.

Example search_falsy_year_lists_all_years :
  Book.year <$> books seeded = [Some 2019; Some 2018; Some 2008]
  ∧ listed_ids (search_books {[ "year" := "0" ]} seeded) = [1; 2; 3]
  ∧ listed_ids (search_books {[ "year" := "x" ]} seeded) = [1; 2; 3].
Proof. done. Qed.

Example search_and_semantics :
  listed_ids (search_books {[ "q" := "c" ]} seeded) = [1; 3]
  ∧ listed_ids (search_books {[ "q" := "c"; "year" := "2008" ]} seeded) = [3]
  ∧ listed_ids (search_books {[ "q" := "c"; "author" := "MARTIN" ]} seeded)
    = [3]
  ∧ listed_ids (search_books ∅ seeded) = [1; 2; 3].
Proof. done. Qed.

(** *** Ids of deleted books come back *)

Lemma max_id_others (ids : list Z) (i : Z) :
  0 ≤ i →
  (∀ j, j ∈ ids → j ≤ i) → i ∈ ids → max_id ids = i.
Proof.
  intros Hpos Hle Hin. apply Z.le_antisymm.
  - by apply max_id_le.
  - by apply max_id_ge.
Qed.

(** X20: the book table hands ids out again.  When the book with the
    largest id [i] is deleted and the largest id left is [i - 1] (or no
    book is left and [i] is 1), the next book created gets the id [i]
    of the deleted book. *)
Theorem newest_book_id_reused (i now : Z) (db : database) (data : book_json) :
  i ∈ Book.id <$> books db →
  (∀ b, b ∈ books db → Book.id b ≠ i → Book.id b < i) →
  (i = 1 ∧ (∀ b, b ∈ books db → Book.id b = i)
   ∨ i - 1 ∈ Book.id <$> books db ∧ 1 ≤ i) →
  next_book_id (delete_book i db).2 = i
  ∧ (status (create_book now data (delete_book i db).2).1 = 201 →
     listed_ids (create_book now data (delete_book i db).2).1 = [i]).
Proof.
  intros Hin Hmax Hbelow.
  assert (Hnext : next_book_id (delete_book i db).2 = i).
  { unfold delete_book.
    destruct (session_get_book i db) eqn:Hg;
      [|by apply session_get_book_None in Hg].
    unfold next_book_id. simpl.
    destruct Hbelow as [[-> Hall] | [Hprev Hpos]].
    - assert (filter (λ b, Book.id b ≠ 1) (books db) = []) as ->; [|done].
      apply head_None, (first_match_None (λ b, Book.id b ≠ 1)).
      intros b Hb Hne. by apply Hne, Hall.
    - rewrite (max_id_others _ (i - 1)); [lia|lia| |].
      + intros j Hj. apply list_elem_of_fmap in Hj as (b & -> & Hb).
        apply list_elem_of_filter in Hb as [Hne Hb].
        specialize (Hmax b Hb Hne). lia.
      + apply list_elem_of_fmap in Hprev as (b & Hid & Hb).
        apply list_elem_of_fmap. exists b. split; [done|].
        apply list_elem_of_filter. split; [lia|done]. }
  split; [done|]. intros H201.
  destruct (create_book_cases now data (delete_book i db).2)
    as [(_ & H400 & _) | (t & a & _ & _ & _ & _ & Hcases)]; [congruence|].
  destruct Hcases as [[_ Hr] | (author & _ & Hcases)];
    [by rewrite Hr in H201|].
  destruct Hcases as [(s & _ & _ & _ & Hr)
                     | [(s & _ & _ & _ & Hr) | [_ Hr]]];
    [by rewrite Hr in H201 | by rewrite Hr in H201 |].
  rewrite Hr. unfold listed_ids. simpl. by rewrite Hnext.
Qed.

Lemma newest_book_id_reused_witness :
  next_book_id (delete_book 3 seeded).2 = 3
  ∧ listed_ids
      (create_book 7 (mk_book_json (Some "Refactoring") (Some 1) None None false)
                   (delete_book 3 seeded).2).1 = [3].
Proof.
  destruct (newest_book_id_reused 3 7 seeded
              (mk_book_json (Some "Refactoring") (Some 1) None None false))
    as [Hnext Hcreate].
  - apply (bool_decide_unpack _). vm_compute. exact I.
  - intros b Hb Hne.
    assert (Hall : Forall (λ b, Book.id b ≠ 3 → Book.id b < 3) (books seeded)).
    { apply (bool_decide_unpack _). vm_compute. exact I. }
    by apply (proj1 (Forall_forall _ _) Hall b Hb).
  - right. split; [|lia]. apply (bool_decide_unpack _). vm_compute. exact I.
  - split; [exact Hnext|]. apply Hcreate. reflexivity.
Defined.

(** *** The listings *)

Lemma author_to_dict_Some (db : database) (a : Author.t) :
  referential_integrity db →
  ∃ bs,
    author_to_dict db true a
    = Some (mk_author_dict (Author.id a) (Author.name a) (Author.city a)
                           (Some bs))
    ∧ d_id <$> bs
      = Book.id <$> filter (λ b, Book.author_id b = Author.id a) (books db).
Proof.
  intros Hfk. unfold author_to_dict.
  destruct (books_to_dicts_Some db
              (filter (λ b, Book.author_id b = Author.id a) (books db)))
    as (bs & Hbs & Hids).
  { intros b Hb. apply list_elem_of_filter in Hb as [_ Hb]. by apply Hfk. }
  rewrite Hbs. simpl. by exists bs.
Qed.

Lemma authors_to_dicts_Some (db : database) (l : list Author.t) :
  referential_integrity db →
  ∃ ds, mapM (author_to_dict db true) l = Some ds
        ∧ a_id <$> ds = Author.id <$> l
        ∧ a_name <$> ds = Author.name <$> l.
Proof.
  intros Hfk. induction l as [|a l (ds & Hds & Hids & Hnames)].
  - by exists [].
  - destruct (author_to_dict_Some db a Hfk) as (bs & Hd & _).
    eexists (_ :: ds). split.
    + cbn -[author_to_dict]. rewrite Hd. cbn -[author_to_dict].
      by rewrite Hds.
    + rewrite !fmap_cons. simpl. by rewrite Hids, Hnames.
Qed.

(** X21: on a database with referential integrity the three listing
    routes never fail: [GET /api/books] answers 200 with the number of
    books and one entry per book in table order, [GET /api/authors] does
    the same for the authors, and [GET /api/authors/<id>] for an existing
    author answers 200 with its name, its city and the books whose
    [author_id] is that id, in table order. *)
Theorem listings_complete (db : database) :
  referential_integrity db →
  (∃ ds, get_books db = mk_response 200 (BookList (length (books db)) ds)
         ∧ d_id <$> ds = Book.id <$> books db)
  ∧ (∃ ds, get_authors db
           = mk_response 200 (AuthorList (length (authors db)) ds)
           ∧ a_id <$> ds = Author.id <$> authors db
           ∧ a_name <$> ds = Author.name <$> authors db)
  ∧ (∀ i a, session_get_author i db = Some a →
       ∃ bs, get_author i db
             = mk_response 200
                 (AuthorResult None
                    (mk_author_dict i (Author.name a) (Author.city a)
                                    (Some bs)))
             ∧ d_id <$> bs
               = Book.id <$> filter (λ b, Book.author_id b = i) (books db)).
Proof.
  intros Hfk. split_all.
  - unfold get_books.
    destruct (books_to_dicts_Some db (books db)) as (ds & Hds & Hids);
      [by apply Hfk|].
    rewrite Hds. by exists ds.
  - unfold get_authors.
    destruct (authors_to_dicts_Some db (authors db) Hfk)
      as (ds & Hds & Hids & Hnames).
    rewrite Hds. by exists ds.
  - intros i a Hg. unfold get_author. rewrite Hg.
    destruct (author_to_dict_Some db a Hfk) as (bs & Hd & Hids).
    rewrite Hd. apply session_get_author_Some in Hg as [_ <-]. by exists bs.
Qed.

Lemma listings_complete_witness :
  (∃ ds, get_books seeded = mk_response 200 (BookList 3 ds)
         ∧ d_id <$> ds = [1; 2; 3])
  ∧ ∃ bs, get_author 2 seeded
          = mk_response 200
              (AuthorResult None
                 (mk_author_dict 2 "Miguel Grinberg" "Washington" (Some bs)))
          ∧ d_id <$> bs = [2].
Proof.
  destruct (listings_complete seeded seeded_integrity)
    as ((ds & Hr & Hids) & _ & Hauthor).
  split; [by exists ds|].
  destruct (Hauthor 2 (Author.mk 2 "Miguel Grinberg" "Washington") eq_refl)
    as (bs & Hg & Hbs).
  by exists bs.
Defined.

(** *** Seeding at start-up *)

Lemma init_db_keeps (now : Z) (db : database) :
  authors db ≠ [] → books db ≠ [] → init_db now db = Some db.
Proof.
  intros Ha Hb. unfold init_db.
  destruct (authors db) as [|a l] eqn:Hauthors; [done|].
  simpl. by destruct (books db).
Qed.

Lemma init_db_result_nonempty (now : Z) (db db' : database) :
  init_db now db = Some db' → authors db' ≠ [] ∧ books db' ≠ [].
Proof.
  unfold init_db. intros Hinit.
  assert (Hstep : ∃ db1,
    (if decide (length (authors db) = 0%nat)
     then add_all_authors [ ("Eric Matthes", "New York");
                            ("Miguel Grinberg", "Washington");
                            ("Robert C. Martin", "London") ] db
     else Some db) = Some db1
    ∧ authors db1 ≠ []).
  { destruct db as [[|a l] bs]; simpl.
    - eexists. split; [vm_compute; reflexivity|done].
    - eexists. split; [reflexivity|done]. }
  destruct Hstep as (db1 & Hdb1 & Hne1). rewrite Hdb1 in Hinit. simpl in Hinit.
  destruct (decide (length (books db1) = 0%nat)) as [Hempty|Hfull].
  2:{ injection Hinit as <-. split; [done|].
      intros Hnil. by rewrite Hnil in Hfull. }
  destruct (first_author_by_name "Eric Matthes" db1) as [eric|]; [|done].
  destruct (first_author_by_name "Miguel Grinberg" db1) as [miguel|]; [|done].
  destruct (first_author_by_name "Robert C. Martin" db1) as [robert|]; [|done].
  simpl in Hinit. destruct db1 as [as1 bs1]. simpl in *.
  destruct bs1; [|done].
  vm_compute in Hinit. injection Hinit as <-. done.
Qed.

(** X22: seeding is idempotent.  Whenever [init_db] succeeds, both tables
    of its result are non-empty, so running it again, at any later time,
    leaves that result unchanged; and a database that already has an
    author and a book is left exactly as it is. *)
Theorem init_db_idempotent (now later : Z) (db db' : database) :
  init_db now db = Some db' →
  init_db later db' = Some db'
  ∧ authors db' ≠ [] ∧ books db' ≠ []
  ∧ (authors db ≠ [] → books db ≠ [] → db' = db).
Proof.
  intros Hinit.
  destruct (init_db_result_nonempty now db db' Hinit) as [Ha Hb].
  split; [by apply init_db_keeps|]. split; [done|]. split; [done|].
  intros Ha0 Hb0. rewrite (init_db_keeps now db Ha0 Hb0) in Hinit. congruence.
Qed.

Lemma init_db_idempotent_witness :
  init_db 0 empty_database = Some seeded ∧ init_db 99 seeded = Some seeded.
Proof.
  assert (Hseed : init_db 0 empty_database = Some seeded)
    by (vm_compute; reflexivity).
  split; [exact Hseed|].
  apply (init_db_idempotent 0 99 empty_database seeded Hseed).
Defined.

(** X23: seeding fails when authors exist but one of the three sample
    authors is not among them and the book table is empty: [init_db]
    then looks the sample authors up by name and reads the id of a
    missing row. *)
Theorem init_db_missing_sample_author (now : Z) (db : database) :
  authors db ≠ [] →
  books db = [] →
  "Eric Matthes" ∉ Author.name <$> authors db
  ∨ "Miguel Grinberg" ∉ Author.name <$> authors db
  ∨ "Robert C. Martin" ∉ Author.name <$> authors db →
  init_db now db = None.
Proof.
  intros Ha Hb Hmissing. unfold init_db.
  destruct (authors db) as [|a l] eqn:Hauthors; [done|].
  simpl. rewrite Hb. simpl. rewrite <- Hauthors in Hmissing.
  destruct Hmissing as [H|[H|H]];
    apply first_author_by_name_None in H; rewrite H; simpl; [done| |].
  - by destruct (first_author_by_name "Eric Matthes" db).
  - destruct (first_author_by_name "Eric Matthes" db); [|done]. simpl.
    by destruct (first_author_by_name "Miguel Grinberg" db).
Qed.

Lemma init_db_missing_sample_author_witness :
  init_db 5 (delete_author 1 (delete_book 2 (delete_book 3 seeded).2).2).2
  = None.
Proof.
  apply init_db_missing_sample_author.
  - by vm_compute.
  - reflexivity.
  - left. apply (bool_decide_unpack _). vm_compute. exact I.
Defined.

(** *** The title filter is a substring test *)

(** X19: a search by a non-empty [q] that holds neither [%] nor [_],
    with no other filter, on a database with referential integrity,
    lists exactly the books whose title contains [q] as a substring,
    letters compared without regard to case, in table order. *)
Theorem search_title_substring (args : gmap string string) (db : database)
        (q : string) :
  referential_integrity db →
  args !! "q" = Some q → nonempty q = true →
  wildcard_free (list_ascii_of_string q) →
  args !! "author" = None → args !! "year" = None →
  ∃ found ds,
    search_books args db = mk_response 200 (BookList (length found) ds)
    ∧ d_id <$> ds = Book.id <$> found
    ∧ found `sublist_of` books db
    ∧ ∀ b, b ∈ found
           ↔ b ∈ books db
             ∧ ∃ pre post,
                 list_ascii_of_string (lower (Book.title b))
                 = pre ++ list_ascii_of_string (lower q) ++ post.
Proof.
  intros Hfk Hq Hnq Hfree Ha Hy. unfold search_books, args_get_int.
  rewrite Hq, Hnq, Ha, Hy. simpl.
  set (found := filter (λ b, ilike (Book.title b) (contains_pattern q) = true)
                       (books db)).
  assert (Hsub : found `sublist_of` books db) by apply sublist_filter.
  destruct (books_to_dicts_Some db found) as (ds & Hds & Hids).
  { intros b Hb. apply Hfk. by apply (sublist_subseteq _ _ Hsub). }
  rewrite Hds. simpl. exists found, ds.
  split; [done|]. split; [done|]. split; [done|].
  intros b. unfold found. rewrite list_elem_of_filter.
  rewrite (ilike_contains _ q Hfree). tauto.
Qed.

Lemma search_title_substring_witness :
  ∃ found ds,
    search_books {[ "q" := "CoDe" ]} seeded
    = mk_response 200 (BookList (length found) ds)
    ∧ d_id <$> ds = Book.id <$> found
    ∧ found `sublist_of` books seeded.
Proof.
  destruct (search_title_substring {[ "q" := "CoDe" ]} seeded "CoDe"
              seeded_integrity)
    as (found & ds & Hr & Hids & Hsub & _);
    [reflexivity | reflexivity | | reflexivity | reflexivity |].
  - intros c Hc. apply (bool_decide_unpack _).
    revert c Hc. apply Forall_forall. apply (bool_decide_unpack _).
    vm_compute. exact I.
  - by exists found, ds.
Defined.

(** The wildcards stay wildcards: [_] stands for any one character and
    [%] for any run of characters. *)
Example search_wildcards :
  listed_ids (search_books {[ "q" := "CoDe" ]} seeded) = [3]
  ∧ listed_ids (search_books {[ "q" := "c_de" ]} seeded) = [3]
  ∧ listed_ids (search_books {[ "q" := "p%c" ]} seeded) = [1]
  ∧ listed_ids (search_books {[ "q" := "%" ]} seeded) = [1; 2; 3].
Proof. done. Qed.

End Part4Facts.

(** ** Theorems: requests for an id that names no record *)

Module NotFoundFacts.

(** C7, as stated, fails: the delete route of the student app answers a
    request for an id that names no student with a redirect. *)
Lemma delete_student_unknown_id :
  (7 ∉ Part2.id <$> Part2.rows Part2.one_student)
  ∧ Part2.resp (Part2.delete_student 7 Part2.one_student)
    = Part2.Redirect "index"
  ∧ Part2.status (Part2.resp (Part2.delete_student 7 Part2.one_student)) ≠ 404.
Proof.
  split; [|split; [reflexivity|by vm_compute]].
  apply (bool_decide_unpack _). vm_compute. exact I.
Qed.

(** C7, amended: for an id that the routes accept and the database can
    bind (from 0 up to the largest signed 64-bit integer), the get, update
    and delete routes of the API answer an id that names no book,
    respectively no author, with 404 and leave the database as it was.
    The student app has no such check: for such an id that names no
    student the delete route and a POST to the edit route leave the table
    as it was, flash their usual message and redirect to the index, and a
    GET of the edit route renders the form without a student. *)
Theorem unknown_id_outcomes (i : Z) (db : Part4.database) (t : Part2.table)
        (bdata : Part4.book_json) (adata : Part4.author_json)
        (f : gmap string string) (n e c : string) :
  route_id i →
  (i ∉ Part4.Book.id <$> Part4.books db →
     Part4.get_book i db = Part4.error 404 "Book not found"
     ∧ Part4.update_book i bdata db = (Part4.error 404 "Book not found", db)
     ∧ Part4.delete_book i db = (Part4.error 404 "Book not found", db))
  ∧ (i ∉ Part4.Author.id <$> Part4.authors db →
     Part4.get_author i db = Part4.error 404 "Author not found"
     ∧ Part4.update_author i adata db
       = (Part4.error 404 "Author not found", db)
     ∧ Part4.delete_author i db = (Part4.error 404 "Author not found", db))
  ∧ (i ∉ Part2.id <$> Part2.rows t →
     Part2.delete_student i t
     = Part2.mk_outcome (Part2.Redirect "index")
                        [("Student deleted!", "danger")] t
     ∧ Part2.status (Part2.resp (Part2.delete_student i t)) = 302
     ∧ (f !! "name" = Some n → f !! "email" = Some e → f !! "course" = Some c →
        Part2.edit_student i (Part2.mk_request Part2.POST f) t
        = Part2.mk_outcome (Part2.Redirect "index")
                           [("Student updated successfully!", "success")] t)
     ∧ Part2.edit_student i (Part2.mk_request Part2.GET f) t
       = Part2.mk_outcome (Part2.RenderEdit None) [] t).
Proof.
  intros _. split; [|split].
  - intros Hno. apply Part4Facts.session_get_book_None in Hno.
    unfold Part4.get_book, Part4.update_book, Part4.delete_book.
    by rewrite Hno.
  - intros Hno. apply Part4Facts.session_get_author_None in Hno.
    unfold Part4.get_author, Part4.update_author, Part4.delete_author.
    by rewrite Hno.
  - intros Hno. unfold Part2.delete_student, Part2.edit_student. simpl.
    rewrite (Part2Facts.delete_row_absent i t Hno).
    split; [done|]. split; [done|]. split.
    + intros -> -> ->. unfold Part2.update_student.
      by rewrite decide_False.
    + by rewrite (proj2 (Part2Facts.select_by_id_None i t) Hno).
Qed.

Lemma unknown_id_outcomes_witness :
  route_id 9
  ∧ Part4.get_book 9 Part4.seeded = Part4.error 404 "Book not found"
  ∧ Part4.delete_author 9 Part4.seeded
    = (Part4.error 404 "Author not found", Part4.seeded)
  ∧ Part2.delete_student 9 Part2.one_student
    = Part2.mk_outcome (Part2.Redirect "index")
                       [("Student deleted!", "danger")] Part2.one_student
  ∧ Part2.edit_student 9
      (Part2.mk_request Part2.POST
         (Part2.student_form "Bob" "bob@example.com" "Sets"))
      Part2.one_student
    = Part2.mk_outcome (Part2.Redirect "index")
                       [("Student updated successfully!", "success")]
                       Part2.one_student.
Proof.
  assert (H9 : route_id 9) by (unfold route_id, int64; lia).
  split; [exact H9|].
  destruct (unknown_id_outcomes 9 Part4.seeded Part2.one_student
              (Part4.mk_book_json None None None None false)
              (Part4.mk_author_json None None false)
              (Part2.student_form "Bob" "bob@example.com" "Sets")
              "Bob" "bob@example.com" "Sets" H9)
    as (Hbook & Hauthor & Hstudent).
  split; [apply Hbook; apply (bool_decide_unpack _); vm_compute; exact I|].
  split; [apply Hauthor; apply (bool_decide_unpack _); vm_compute; exact I|].
  destruct Hstudent as (Hdel & _ & Hedit & _).
  { apply (bool_decide_unpack _). vm_compute. exact I. }
  split; [exact Hdel|]. by apply Hedit.
Defined.

End NotFoundFacts.
